(** * kitazawagosho: a shallow embedding of [index.js]

    The source file holds two variants of one program: the async/await
    variant (lines 1-268, module [VariantA] below) and the older callback
    variant (lines 269-525, module [VariantB]).  Both are embedded.

    - JavaScript strings are sequences of UTF-16 code units ([jsstring]).
    - The [App] object is an explicit state record; logging, outbound
      Twitter calls and timers are events of a trace.
    - The answers of the outside world (station data, TV answers, upload and
      post results, the clock) are arguments of the functions that ask. *)

From Stdlib Require Import List NArith Lia Bool Ascii String DecimalString.
From Stdlib Require Import Permutation PeanoNat.
Import ListNotations.

Local Open Scope N_scope.
Local Open Scope list_scope.

(** ** JavaScript strings *)

Definition jsstring := list N.

Definition inRange (lo hi c : N) : bool := (lo <=? c) && (c <=? hi).

(** UTF-16 code units of a code point. *)
Definition utf16_of_codepoint (cp : N) : jsstring :=
  if cp <? 0x10000 then [cp]
  else [0xD800 + (cp - 0x10000) / 0x400; 0xDC00 + (cp - 0x10000) mod 0x400].

(** The literals of the source are written here as in the source; this file
    is UTF-8, so a literal is decoded from its bytes. *)
Fixpoint utf16_of_utf8 (bs : list N) : jsstring :=
  match bs with
  | [] => []
  | b0 :: r0 =>
    if b0 <? 0x80 then b0 :: utf16_of_utf8 r0
    else match r0 with
    | [] => [0xFFFD]
    | b1 :: r1 =>
      if b0 <? 0xE0 then
        utf16_of_codepoint ((b0 mod 0x20) * 0x40 + b1 mod 0x40) ++ utf16_of_utf8 r1
      else match r1 with
      | [] => [0xFFFD]
      | b2 :: r2 =>
        if b0 <? 0xF0 then
          utf16_of_codepoint ((b0 mod 0x10) * 0x1000 + (b1 mod 0x40) * 0x40 + b2 mod 0x40)
            ++ utf16_of_utf8 r2
        else match r2 with
        | [] => [0xFFFD]
        | b3 :: r3 =>
          utf16_of_codepoint ((b0 mod 0x08) * 0x40000 + (b1 mod 0x40) * 0x1000
                              + (b2 mod 0x40) * 0x40 + b3 mod 0x40)
            ++ utf16_of_utf8 r3
        end
      end
    end
  end.

Definition js (s : string) : jsstring :=
  utf16_of_utf8 (map N_of_ascii (list_ascii_of_string s)).

(** The empty string, [''] in the source. *)
Definition empty : jsstring := [].

(** [===] on strings. *)
Definition jseqb (a b : jsstring) : bool :=
  if list_eq_dec N.eq_dec a b then true else false.

(** Number-to-string conversion of a non-negative integer below 1e21. *)
Definition decimal (n : N) : jsstring := js (NilZero.string_of_uint (N.to_uint n)).

(** A string is truthy when it is not empty; [undefined] is falsy. *)
Definition truthy (v : option jsstring) : bool :=
  match v with
  | Some (_ :: _) => true
  | _ => false
  end.

(** ** Errors, events and the effect monad *)

Inductive errkind := KError | KTypeError | KRangeError.

(** An error object: its constructor and its [message]. *)
Record jserror := mkError { kind : errkind; message : jsstring }.

Inductive level := LVerbose | LInfo | LWarn | LError.

(** The record handed to [twitter.post('statuses/update', st)]. *)
Record Tweet := mkTweet { status : jsstring; media_ids : option jsstring }.

Inductive timer := CamStart | NetatmoMonitor | BraviaMonitor.

Inductive event :=
| Log (lv : level) (fmt : jsstring)          (**r [log.<lv>(TAG, fmt, ...)] *)
| StatusesUpdate (st : Tweet)                (**r [twitter.post('statuses/update', st)] *)
| MediaUpload (data : list N)                (**r [twitter.post('media/upload', {media: data})] *)
| SetTimeout (t : timer) (ms : N)            (**r [setTimeout(() => ..., ms)] *)
| UnhandledRejection (e : jserror).          (**r a rejected promise nobody awaits or catches *)

(** [this.luxes], [this.netatmoStatus], [this.braviaStatus]. *)
Record App := mkApp {
  luxes : list N;
  netatmoStatus : jsstring;
  braviaStatus : jsstring
}.

(** How a piece of code ends.  [Throw e]: an exception, or the rejection of
    the promise of an async function, which an enclosing [try] around an
    [await] catches.  [Uncaught e]: an exception thrown inside a callback
    that a library invoked; it escapes to the event loop, no [try] of the
    program sees it and the code waiting for that callback never resumes. *)
Inductive completion (A : Type) :=
| Normal (a : A)
| Throw (e : jserror)
| Uncaught (e : jserror).
Arguments Normal {A} a.
Arguments Throw {A} e.
Arguments Uncaught {A} e.

Definition Js (A : Type) : Type := App -> completion A * App * list event.

Definition ret {A} (a : A) : Js A := fun s => (Normal a, s, []).

Definition bind {A B} (m : Js A) (k : A -> Js B) : Js B :=
  fun s =>
    match m s with
    | (Normal a, s1, t1) =>
      match k a s1 with
      | (c, s2, t2) => (c, s2, t1 ++ t2)
      end
    | (Throw e, s1, t1) => (Throw e, s1, t1)
    | (Uncaught e, s1, t1) => (Uncaught e, s1, t1)
    end.

Declare Scope js_scope.
Delimit Scope js_scope with js.
Notation "x <- m ;; k" := (bind m (fun x => k))
  (at level 100, m at next level, right associativity) : js_scope.
Notation "m ;; k" := (bind m (fun _ => k))
  (at level 100, right associativity) : js_scope.
Local Open Scope js_scope.

Definition throw {A} (e : jserror) : Js A := fun s => (Throw e, s, []).
Definition emit (ev : event) : Js unit := fun s => (Normal tt, s, [ev]).
Definition gets {A} (f : App -> A) : Js A := fun s => (Normal (f s), s, []).
Definition modify (f : App -> App) : Js unit := fun s => (Normal tt, f s, []).

(** [try { m } catch (err) { h err }] *)
Definition try_catch {A} (m : Js A) (h : jserror -> Js A) : Js A :=
  fun s =>
    match m s with
    | (Throw e, s1, t1) =>
      match h e s1 with
      | (c, s2, t2) => (c, s2, t1 ++ t2)
      end
    | r => r
    end.

(** A call of an async function whose promise is dropped (no [await], no
    [.then], no [.catch]): the caller goes on; a rejection stays unhandled. *)
Definition detached (m : Js unit) : Js unit :=
  fun s =>
    match m s with
    | (Throw e, s1, t1) => (Normal tt, s1, t1 ++ [UnhandledRejection e])
    | r => r
    end.

(** The body of a callback that a library invokes: what it throws is
    uncaught. *)
Definition callback {A} (m : Js A) : Js A :=
  fun s =>
    match m s with
    | (Throw e, s1, t1) => (Uncaught e, s1, t1)
    | r => r
    end.

Definition outcome {A} (r : completion A * App * list event) : completion A := fst (fst r).
Definition final {A} (r : completion A * App * list event) : App := snd (fst r).
Definition trace {A} (r : completion A * App * list event) : list event := snd r.

(** The status-post calls of a trace, in order. *)
Fixpoint publishes (t : list event) : list Tweet :=
  match t with
  | [] => []
  | StatusesUpdate st :: t' => st :: publishes t'
  | _ :: t' => publishes t'
  end.

(** The timers armed in a trace. *)
Fixpoint timers (t : list event) : list (timer * N) :=
  match t with
  | [] => []
  | SetTimeout k ms :: t' => (k, ms) :: timers t'
  | _ :: t' => timers t'
  end.

(** The [log.error] calls of a trace. *)
Fixpoint errorLogs (t : list event) : list jsstring :=
  match t with
  | [] => []
  | Log LError m :: t' => m :: errorLogs t'
  | _ :: t' => errorLogs t'
  end.

(** The rejections left unhandled in a trace. *)
Fixpoint unhandled (t : list event) : list jserror :=
  match t with
  | [] => []
  | UnhandledRejection e :: t' => e :: unhandled t'
  | _ :: t' => unhandled t'
  end.

(** ** Constants *)

Definition BRAVIA_INTERVAL : N := 60 * 1000.
Definition CAM_INTERVAL : N := 15 * 60 * 1000.
Definition IMG_FILENAME : jsstring := js "raspicam.jpg".

(** The state the constructor leaves. *)
Definition newApp : App :=
  mkApp [] (js "🌬 N/A") (js "📺 N/A").

(** ** INVALID_TEXT_REGEXP

    [/([\uE000-\uF8FF]|\uD83C[\uDF00-\uDFFF]|\uD83D[\uDC00-\uDDFF])/g], no [u]
    flag: it matches on code units.  [replaceInvalid s] is
    [s.replace(INVALID_TEXT_REGEXP, '')]: scanning from the left, at every
    position the three alternatives are tried in order; a match is dropped
    and the scan goes on after it, otherwise the unit is kept. *)
Fixpoint replaceInvalid (s : jsstring) : jsstring :=
  match s with
  | [] => []
  | c :: rest =>
    if inRange 0xE000 0xF8FF c then replaceInvalid rest
    else match rest with
    | [] => [c]
    | d :: rest' =>
      if (c =? 0xD83C) && inRange 0xDF00 0xDFFF d then replaceInvalid rest'
      else if (c =? 0xD83D) && inRange 0xDC00 0xDDFF d then replaceInvalid rest'
      else c :: replaceInvalid rest
    end
  end.

(** ** Code shared by both variants, textually identical in the source; each
    variant module instantiates it. *)

(** A match of the literal [p] anchored at the start of [s]. *)
Fixpoint startsWith (p s : jsstring) : bool :=
  match p, s with
  | [], _ => true
  | _ :: _, [] => false
  | a :: p', b :: s' => (a =? b) && startsWith p' s'
  end.

(** [buf.readUInt8(offset)]: a [RangeError] outside the buffer.  The message
    text depends on the Node version; nothing reads it. *)
Definition readUInt8 (buf : list N) (offset : nat) : Js N :=
  match nth_error buf offset with
  | Some b => ret b
  | None => throw (mkError KRangeError (js "Index out of range"))
  end.

(** [peripheral.advertisement]: [localName] is a string or not ([None]);
    [manufacturerData] is a Buffer or absent. *)
Record Advertisement := mkAdv {
  localName : option jsstring;
  manufacturerData : option (list N)
}.

(** [_.isString(name)] *)
Definition isString (name : option jsstring) : bool :=
  match name with
  | Some _ => true
  | None => false
  end.

(** [name.match(/^BLECAST_BL/)] as a condition ([null] is falsy). *)
Definition matchBlecast (name : option jsstring) : bool :=
  match name with
  | Some n => startsWith (js "BLECAST_BL") n
  | None => false
  end.

(** [!data]: a Buffer, even an empty one, is truthy. *)
Definition absent {A} (data : option A) : bool :=
  match data with
  | Some _ => false
  | None => true
  end.

(** A value read from [dashboard_data] is only ever converted to a string
    (by [+] with a string); it is modelled by the string that conversion
    gives.  [int n] is the number [n]. *)
Record jsnumber := mkNum { toString : jsstring }.
Definition int (n : N) : jsnumber := mkNum (decimal n).

Record Dashboard := mkDashboard {
  Temperature : jsnumber;
  Humidity : jsnumber;
  Pressure : jsnumber;
  CO2 : jsnumber;
  Noise : jsnumber
}.

Record Device := mkDevice { dashboard_data : option Dashboard }.

(** What [netatmo.getStationsData] hands to its callback. *)
Record StationsData := mkStations { err : option jserror; devices : list Device }.

(** The property names of the table in [parseNetatmoDevice]. *)
Inductive key := KTemperature | KHumidity | KPressure | KCO2 | KNoise.

(** [data[o.key]] *)
Definition prop (data : Dashboard) (k : key) : jsnumber :=
  match k with
  | KTemperature => Temperature data
  | KHumidity => Humidity data
  | KPressure => Pressure data
  | KCO2 => CO2 data
  | KNoise => Noise data
  end.

Record Row := mkRow { rkey : key; emoji : jsstring; unit_ : jsstring }.

(** The settled promise of an outside call, or the result of a call that
    may throw. *)
Inductive answer (A : Type) :=
| Fulfilled (a : A)
| Rejected (e : jserror).
Arguments Fulfilled {A} a.
Arguments Rejected {A} e.

Definition await {A} (a : answer A) : Js A :=
  match a with
  | Fulfilled v => ret v
  | Rejected e => throw e
  end.

(** Answer of [bravia.system.invoke('getPowerStatus')]. *)
Record PowerStatus := mkPower { power_status : jsstring }.

(** Answer of [bravia.avContent.invoke('getPlayingContentInfo')]. *)
Record ContentInfo := mkInfo { title : jsstring; programTitle : option jsstring }.

Definition setLuxes (l : list N) (s : App) : App :=
  mkApp l (netatmoStatus s) (braviaStatus s).
Definition setNetatmoStatus (v : jsstring) (s : App) : App :=
  mkApp (luxes s) v (braviaStatus s).
Definition setBraviaStatus (v : jsstring) (s : App) : App :=
  mkApp (luxes s) (netatmoStatus s) v.

(** [Math.round(total / n)] for integers [total] and [n > 0]: the quotient
    rounded to the nearest integer, a half rounded up.  Samples are below
    2^16 and an array is shorter than 2^32, so the sum is exact in a double
    and the rounding of the division cannot reach a half-integer boundary:
    the double computation gives this integer. *)
Definition Math_round_div (total n : N) : N := (2 * total + n) / (2 * n).

(** [`${this.netatmoStatus} ${this.braviaStatus}`] *)
Definition composite (s : App) : jsstring :=
  netatmoStatus s ++ js " " ++ braviaStatus s.

(** ** The async/await variant (lines 1-268) *)

Module VariantA.

Definition NETATMO_INTERVAL : N := 333 * 1000.

(** [noble.on('discover', ...)], lines 79-93 *)
Definition onDiscover (adv : Advertisement) : Js unit :=
  let name := localName adv in
  let data := manufacturerData adv in
  emit (Log LVerbose (js "peripheral.advertisement:%j")) ;;
  if negb (isString name) || negb (matchBlecast name) || absent data then ret tt
  else
    match data with
    | None => ret tt
    | Some buf =>
      hi <- readUInt8 buf 5 ;;
      lo <- readUInt8 buf 4 ;;
      let val := hi * 256 + lo in
      modify (fun s => setLuxes (luxes s ++ [val]) s) ;;
      emit (Log LVerbose (js "MEASURE: %s %d"))
    end.

(** [_calcLux], lines 245-265 *)
Definition _calcLux : Js jsstring :=
  l <- gets luxes ;;
  if N.of_nat (List.length l) =? 0 then ret (js "💡💤" ++ js " ")
  else
    let total := fold_left (fun memo lux => memo + lux) l 0 in
    let val := Math_round_div total (N.of_nat (List.length l)) in
    let emoji :=
      if 2750 <? val then js "☀️" else
      if 2000 <? val then js "🌤" else
      if 1000 <? val then js "⛅️" else
      if 500 <? val then js "☁️" else
      if 100 <? val then js "💡" else
      if 10 <? val then js "🕯" else
      js "👻" in
    modify (setLuxes []) ;;
    ret (emoji ++ js " " ++ decimal val ++ js " ").

(** [parseNetatmoDevice], lines 152-172.  [device] is [devices[0]]:
    [None] when the array is empty, and reading a property of [undefined]
    throws. *)
Definition parseNetatmoDevice (device : option Device) : Js jsstring :=
  let status := empty in
  match device with
  | None => throw (mkError KTypeError (js "Cannot read property 'dashboard_data' of undefined"))
  | Some dev =>
    match dashboard_data dev with
    | None => emit (Log LWarn (js "data: %j")) ;; ret status
    | Some data =>
      ret (fold_left
             (fun status o => status ++ (emoji o ++ js " " ++ toString (prop data (rkey o))
                                          ++ unit_ o ++ js " "))
             [ mkRow KTemperature (js "🌡") (js "℃");
               mkRow KHumidity (js "💧") (js "%");
               mkRow KPressure (js "🎈") (js "hPa");
               mkRow KCO2 (js "🌳") (js "ppm");
               mkRow KNoise (js "🔊") (js "dB ") ]
             status)
    end
  end.

(** [_tweet], lines 201-211.  [now] is [_.now()]; [postErr] is the error
    the status-post call rejects with, if it does. *)
Definition _tweet (now : N) (postErr : option jserror)
    (status : jsstring) (media_ids : option jsstring) : Js unit :=
  let st := mkTweet (status ++ js " ⏰ " ++ decimal (now / 1000) ++ js "UTC")
                    (if truthy media_ids then media_ids else None) in
  emit (StatusesUpdate st) ;;
  match postErr with
  | Some e => throw e
  | None => emit (Log LInfo (js "POST: %j"))
  end.

(** [_getNetatmoStationData], lines 213-225.  The promise only resolves:
    what the callback throws is uncaught. *)
Definition _getNetatmoStationData (ans : StationsData) : Js jsstring :=
  callback (
    status <- _calcLux ;;
    match err ans with
    | Some _ => ret (status ++ js "Netatmo error! ")
    | None =>
      p <- parseNetatmoDevice (nth_error (devices ans) 0) ;;
      ret (status ++ p)
    end).

(** [_getBraviaStatus], lines 227-243 *)
Definition _getBraviaStatus (power : answer PowerStatus) (info : answer ContentInfo)
    : Js jsstring :=
  try_catch
    (p <- await power ;;
     if jseqb (power_status p) (js "active") then
       i <- await info ;;
       let status := title i in
       match programTitle i with
       | Some (c :: t) => ret (status ++ js ": " ++ replaceInvalid (c :: t))
       | _ => ret status
       end
     else ret (power_status p))
    (fun e => emit (Log LWarn (js "Bravia err")) ;; ret (js "?")).

(** [updateNetatmoStatus], lines 119-130.  [_tweet] is called without
    [await]. *)
Definition updateNetatmoStatus (ans : StationsData) (now : N) (postErr : option jserror)
    : Js unit :=
  try_catch
    (status <- _getNetatmoStationData ans ;;
     cur <- gets netatmoStatus ;;
     if negb (jseqb cur status) then
       modify (setNetatmoStatus status) ;;
       text <- gets composite ;;
       detached (_tweet now postErr text None)
     else ret tt)
    (fun e => modify (setNetatmoStatus (message e)) ;; emit (Log LError (message e))).

(** [updateBraviaStatus], lines 132-150 *)
Definition updateBraviaStatus (power : answer PowerStatus) (info : answer ContentInfo)
    (now : N) (postErr : option jserror) : Js unit :=
  braviaStatus' <-
    try_catch
      (status <- _getBraviaStatus power info ;; ret (js "📺 " ++ status))
      (fun e => emit (Log LError (js "%j")) ;; ret (js "📺 " ++ message e)) ;;
  cur <- gets braviaStatus ;;
  if jseqb cur braviaStatus' then ret tt
  else
    modify (setBraviaStatus braviaStatus') ;;
    text <- gets composite ;;
    try_catch (_tweet now postErr text None)
              (fun e => emit (Log LError (js "%j"))).

(** [_onCameraRead], lines 174-199.  [camErr] and [filename] come with the
    device's read event; [file] is what [fs.readFileSync(IMG_PATH)] gives,
    [upload] the [media_id_string] of the media upload. *)
Definition _onCameraRead (camErr : option jserror) (filename : jsstring)
    (file : answer (list N)) (upload : answer jsstring)
    (now : N) (postErr : option jserror) : Js unit :=
  match camErr with
  | Some e => emit (Log LError (message e))
  | None => emit (Log LInfo (js "cam saved: %s (%d)"))
  end ;;
  if negb (jseqb filename IMG_FILENAME) then ret tt
  else
    status <- gets composite ;;
    r <- try_catch
           (data <- await file ;;
            emit (MediaUpload data) ;;
            media <- await upload ;;
            ret (status, Some media))
           (fun e => emit (Log LError (message e)) ;;
                     ret (status ++ js "📸" ++ message e, None)) ;;
    try_catch (_tweet now postErr (fst r) (snd r))
              (fun e => emit (Log LError (message e))) ;;
    emit (SetTimeout CamStart CAM_INTERVAL).

End VariantA.

(** ** The callback variant (lines 269-525) *)

Module VariantB.

Definition NETATOMO_INTERVAL : N := 5 * 60 * 1000.

(** [noble.on('discover', ...)], lines 347-361 *)
Definition onDiscover (adv : Advertisement) : Js unit :=
  let name := localName adv in
  let data := manufacturerData adv in
  emit (Log LVerbose (js "peripheral.advertisement:%j")) ;;
  if negb (isString name) || negb (matchBlecast name) || absent data then ret tt
  else
    match data with
    | None => ret tt
    | Some buf =>
      hi <- readUInt8 buf 5 ;;
      lo <- readUInt8 buf 4 ;;
      let val := hi * 256 + lo in
      modify (fun s => setLuxes (luxes s ++ [val]) s) ;;
      emit (Log LInfo (js "MEASURE: %s %d"))
    end.

(** [_calcLux], lines 502-522 *)
Definition _calcLux : Js jsstring :=
  l <- gets luxes ;;
  if N.of_nat (List.length l) =? 0 then ret (js "💡💤" ++ js " ")
  else
    let total := fold_left (fun memo lux => memo + lux) l 0 in
    let val := Math_round_div total (N.of_nat (List.length l)) in
    let emoji :=
      if 2750 <? val then js "☀️" else
      if 2000 <? val then js "🌤" else
      if 1000 <? val then js "⛅️" else
      if 500 <? val then js "☁️" else
      if 100 <? val then js "💡" else
      if 10 <? val then js "🕯" else
      js "👻" in
    modify (setLuxes []) ;;
    ret (emoji ++ js " " ++ decimal val ++ js " ").

(** [parseNetatmoDevice], lines 430-450 *)
Definition parseNetatmoDevice (device : option Device) : Js jsstring :=
  let status := empty in
  match device with
  | None => throw (mkError KTypeError (js "Cannot read property 'dashboard_data' of undefined"))
  | Some dev =>
    match dashboard_data dev with
    | None => emit (Log LWarn (js "data: %j")) ;; ret status
    | Some data =>
      ret (fold_left
             (fun status o => status ++ (emoji o ++ js " " ++ toString (prop data (rkey o))
                                          ++ unit_ o ++ js " "))
             [ mkRow KTemperature (js "🌡") (js "℃");
               mkRow KHumidity (js "💧") (js "%");
               mkRow KPressure (js "🎈") (js "hPa");
               mkRow KCO2 (js "🌳") (js "ppm");
               mkRow KNoise (js "🔊") (js "dB ") ]
             status)
    end
  end.

(** [_tweet], lines 452-466: not async; the post's callback logs either
    way. *)
Definition _tweet (now : N) (postErr : option jserror)
    (status : jsstring) (media_ids : option jsstring) : Js unit :=
  let st := mkTweet (status ++ js " ⏰ " ++ decimal (now / 1000) ++ js "UTC")
                    (if truthy media_ids then media_ids else None) in
  emit (StatusesUpdate st) ;;
  callback
    match postErr with
    | Some e => emit (Log LError (js "Error: %j"))
    | None => emit (Log LInfo (js "POST: %j"))
    end.

(** [_getNetatomoStationData], lines 468-480 *)
Definition _getNetatomoStationData (ans : StationsData) : Js jsstring :=
  callback (
    status <- _calcLux ;;
    match err ans with
    | Some _ => ret (status ++ js "Netatmo error! ")
    | None =>
      p <- parseNetatmoDevice (nth_error (devices ans) 0) ;;
      ret (status ++ p)
    end).

(** [_getBraviaStatus], lines 482-500: [.then(...).catch(...)] *)
Definition _getBraviaStatus (power : answer PowerStatus) (info : answer ContentInfo)
    : Js jsstring :=
  try_catch
    (p <- await power ;;
     if jseqb (power_status p) (js "active") then
       i <- await info ;;
       let status := title i in
       match programTitle i with
       | Some (c :: t) => ret (status ++ js ": " ++ replaceInvalid (c :: t))
       | _ => ret status
       end
     else ret (power_status p))
    (fun e => emit (Log LWarn (js "Bravia err")) ;; ret (js "?")).

(** [startNetatmoMonitor], lines 405-413: one turn of the loop. *)
Definition startNetatmoMonitor (ans : StationsData) : Js unit :=
  status <- _getNetatomoStationData ans ;;
  modify (setNetatmoStatus status) ;;
  emit (SetTimeout NetatmoMonitor NETATOMO_INTERVAL).

(** [startBraviaMonitor], lines 415-428: one turn of the loop. *)
Definition startBraviaMonitor (power : answer PowerStatus) (info : answer ContentInfo)
    (now : N) (postErr : option jserror) : Js unit :=
  status <- _getBraviaStatus power info ;;
  let status := js "📺 " ++ status in
  cur <- gets braviaStatus ;;
  (if negb (jseqb cur status) then
     modify (setBraviaStatus status) ;;
     text <- gets composite ;;
     _tweet now postErr text None
   else ret tt) ;;
  emit (SetTimeout BraviaMonitor BRAVIA_INTERVAL).

(** [cam.on('read', ...)], lines 375-397.  [status] is declared [const]:
    the [status += ...] of the upload's error branch throws a [TypeError]
    before [_tweet] is reached.  The timer is armed right after the upload
    is issued, before its callback runs. *)
Definition onCameraRead (camErr : option jserror) (filename : jsstring)
    (file : answer (list N)) (upload : answer jsstring)
    (now : N) (postErr : option jserror) : Js unit :=
  callback (
    match camErr with
    | Some e => emit (Log LError (message e))
    | None => emit (Log LInfo (js "cam saved: %s (%d)"))
    end ;;
    if negb (jseqb filename IMG_FILENAME) then ret tt
    else
      status <- gets composite ;;
      data <- await file ;;
      emit (MediaUpload data) ;;
      emit (SetTimeout CamStart CAM_INTERVAL) ;;
      callback
        match upload with
        | Rejected error =>
          throw (mkError KTypeError (js "Assignment to constant variable."))
        | Fulfilled media =>
          _tweet now postErr status (Some media)
        end).

End VariantB.

(** ** Definitions that follow the specification's words *)

(** The sum of the samples; the arithmetic mean of [l] is
    [sum l / length l]. *)
Definition sum (l : list N) : N := fold_right N.add 0 l.

(** [v] is the mean [total / n] rounded to the nearest integer (a half
    goes up): [v - 1/2 <= total / n < v + 1/2]. *)
Definition rounded_mean (total n v : N) : Prop :=
  2 * n * v <= 2 * total + n /\ 2 * total + n < 2 * n * v + 2 * n.

(** The seven buckets, by strict lower thresholds. *)
Definition bucket_of (v : N) (emoji : jsstring) : Prop :=
  (2750 < v -> emoji = js "☀️") /\
  (2000 < v <= 2750 -> emoji = js "🌤") /\
  (1000 < v <= 2000 -> emoji = js "⛅️") /\
  (500 < v <= 1000 -> emoji = js "☁️") /\
  (100 < v <= 500 -> emoji = js "💡") /\
  (10 < v <= 100 -> emoji = js "🕯") /\
  (v <= 10 -> emoji = js "👻").

Definition asleep : jsstring := js "💡💤 ".

(** The text the Publisher posts for a status text at clock [now] (in
    milliseconds): separator, epoch seconds, suffix. *)
Definition stamped (text : jsstring) (now : N) : jsstring :=
  text ++ js " ⏰ " ++ decimal (now / 1000) ++ js "UTC".

(** ** Definitions used in the statements and proofs *)

(** The conditional chain of [_calcLux], named for the proofs. *)
Definition chain (val : N) : jsstring :=
  if 2750 <? val then js "☀️" else
  if 2000 <? val then js "🌤" else
  if 1000 <? val then js "⛅️" else
  if 500 <? val then js "☁️" else
  if 100 <? val then js "💡" else
  if 10 <? val then js "🕯" else
  js "👻".

Definition outOfRange : jserror := mkError KRangeError (js "Index out of range").

(** A matching advertisement whose manufacturer data has three bytes. *)
Definition shortAdvertisement : Advertisement :=
  mkAdv (Some (js "BLECAST_BL")) (Some [0x02; 0x01; 0x06]).

(** ["<emoji> <value><unit> "] *)
Definition subfragment (emoji : jsstring) (value : jsnumber) (unit : jsstring) : jsstring :=
  emoji ++ js " " ++ toString value ++ unit ++ js " ".

(** The five sub-fragments in the declared order, the unit of Noise being
    [noiseUnit]. *)
Definition snapshot (noiseUnit : jsstring) (data : Dashboard) : jsstring :=
  subfragment (js "🌡") (Temperature data) (js "℃")
  ++ subfragment (js "💧") (Humidity data) (js "%")
  ++ subfragment (js "🎈") (Pressure data) (js "hPa")
  ++ subfragment (js "🌳") (CO2 data) (js "ppm")
  ++ subfragment (js "🔊") (Noise data) noiseUnit.

(** The reading of the specification's example. *)
Definition exampleReading : Dashboard :=
  mkDashboard (int 21) (int 55) (int 1008) (int 450) (int 40).

Definition isHighSurrogate (c : N) : bool := inRange 0xD800 0xDBFF c.
Definition isLowSurrogate (c : N) : bool := inRange 0xDC00 0xDFFF c.

(** The code points of a string, each with the code units that spell it,
    as the string iterator gives them: a high surrogate followed by a low
    one is one code point, any other unit stands for itself. *)
Fixpoint codePoints (s : jsstring) : list (N * jsstring) :=
  match s with
  | [] => []
  | c :: rest =>
    match rest with
    | [] => [(c, [c])]
    | d :: rest' =>
      if isHighSurrogate c && isLowSurrogate d
      then (0x10000 + (c - 0xD800) * 0x400 + (d - 0xDC00), [c; d]) :: codePoints rest'
      else (c, [c]) :: codePoints rest
    end
  end.

(** The block Private Use Area, U+E000..U+F8FF. *)
Definition privateUse (cp : N) : bool := inRange 0xE000 0xF8FF cp.

(** The block Miscellaneous Symbols and Pictographs, U+1F300..U+1F5FF. *)
Definition pictograph (cp : N) : bool := inRange 0x1F300 0x1F5FF cp.

Definition kept (p : N * jsstring) : bool :=
  negb (privateUse (fst p) || pictograph (fst p)).

(** The text with exactly the code points of these two blocks removed,
    every other code point left as it is. *)
Definition stripped (s : jsstring) : jsstring :=
  flat_map snd (filter kept (codePoints s)).

(** The display fragment, by code points: the program title loses the
    code points of the two blocks above and nothing else. *)
Definition displayFragment (power : answer PowerStatus) (info : answer ContentInfo)
    : jsstring :=
  js "📺 " ++
  match power with
  | Rejected _ => js "?"
  | Fulfilled p =>
    if jseqb (power_status p) (js "active") then
      match info with
      | Rejected _ => js "?"
      | Fulfilled i =>
        match programTitle i with
        | Some (c :: t) => title i ++ js ": " ++ stripped (c :: t)
        | _ => title i
        end
      end
    else power_status p
  end.

(** Every element is a 16-bit code unit. *)
Definition units16 (s : jsstring) : Prop := Forall (fun c => c < 0x10000) s.

(** The program title of a content answer consists of 16-bit units. *)
Definition titleUnits16 (info : answer ContentInfo) : Prop :=
  match info with
  | Fulfilled i =>
    match programTitle i with
    | Some t => units16 t
    | None => True
    end
  | Rejected _ => True
  end.

(** What a trace holds besides log entries. *)
Definition quiet (t : list event) : Prop :=
  publishes t = [] /\ timers t = [] /\ errorLogs t = [] /\ unhandled t = [].

(** A station answer with the reading of the example. *)
Definition exampleStations : StationsData :=
  mkStations None [mkDevice (Some exampleReading)].

Definition postFailure : jserror := mkError KError (js "Status is a duplicate.").

Definition uploadFailure : jserror := mkError KError (js "media upload failed").

(** What [_onCameraRead] posts in a cycle. *)
Definition cameraPost (file : answer (list N)) (upload : answer jsstring)
    (now : N) (s : App) : Tweet :=
  match file, upload with
  | Fulfilled _, Fulfilled h =>
    mkTweet (stamped (composite s) now) (if truthy (Some h) then Some h else None)
  | Fulfilled _, Rejected e =>
    mkTweet (stamped (composite s ++ js "📸" ++ message e) now) None
  | Rejected e, _ =>
    mkTweet (stamped (composite s ++ js "📸" ++ message e) now) None
  end.

(** ** The program as a reactive system

    [start()] (lines 70-117 and 338-403) wires the handlers to their
    sources: beacon events to the discover handler, the camera's read event
    to the capture workflow, the timers to the two loops.  Every reaction
    reads and writes the [App] in one synchronous stretch (the discover
    handler at once; a loop turn after its last answer has arrived; the
    capture workflow when the read event arrives), so the reactions are
    taken one after the other, each with the answers it got.  A reaction
    that ends in an exception is an uncaught exception of the process: what
    follows it is not run.  An unhandled rejection is only recorded in the
    trace; a runtime that ends the process on it runs a prefix of the
    sequence, and the statements about sequences hold for every sequence.
    The handlers of [stateChange] (radio commands) and of the camera's
    [start], [stop] and [exit] events (one log line each) touch neither the
    [App] nor the Publisher and are not part of the model. *)

Inductive stimulus :=
| Discover (adv : Advertisement)
| NetatmoTick (ans : StationsData) (now : N) (postErr : option jserror)
| BraviaTick (power : answer PowerStatus) (info : answer ContentInfo)
             (now : N) (postErr : option jserror)
| CameraRead (camErr : option jserror) (filename : jsstring)
             (file : answer (list N)) (upload : answer jsstring)
             (now : N) (postErr : option jserror).

(** Async variant: the timers call [updateNetatmoStatus] and
    [updateBraviaStatus]; [cam.on('read')] calls [_onCameraRead] and drops
    its promise (lines 107-109). *)
Definition reactA (i : stimulus) : Js unit :=
  match i with
  | Discover adv => VariantA.onDiscover adv
  | NetatmoTick ans now postErr => VariantA.updateNetatmoStatus ans now postErr
  | BraviaTick power info now postErr => VariantA.updateBraviaStatus power info now postErr
  | CameraRead camErr filename file upload now postErr =>
    detached (VariantA._onCameraRead camErr filename file upload now postErr)
  end.

(** Callback variant: the timers call [startNetatmoMonitor] and
    [startBraviaMonitor]. *)
Definition reactB (i : stimulus) : Js unit :=
  match i with
  | Discover adv => VariantB.onDiscover adv
  | NetatmoTick ans now postErr => VariantB.startNetatmoMonitor ans
  | BraviaTick power info now postErr => VariantB.startBraviaMonitor power info now postErr
  | CameraRead camErr filename file upload now postErr =>
    VariantB.onCameraRead camErr filename file upload now postErr
  end.

(** The reactions to a sequence of stimuli, in order. *)
Fixpoint run (react : stimulus -> Js unit) (l : list stimulus) : Js unit :=
  match l with
  | [] => ret tt
  | i :: l' => react i ;; run react l'
  end.

Definition isDiscover (i : stimulus) : bool :=
  match i with
  | Discover _ => true
  | _ => false
  end.

Definition isNetatmoTick (i : stimulus) : bool :=
  match i with
  | NetatmoTick _ _ _ => true
  | _ => false
  end.

Definition isBraviaTick (i : stimulus) : bool :=
  match i with
  | BraviaTick _ _ _ _ => true
  | _ => false
  end.

(** The fragment [_calcLux] returns for a buffer. *)
Definition luxSummary (l : list N) : jsstring :=
  match l with
  | [] => asleep
  | _ :: _ =>
    let val := Math_round_div (sum l) (N.of_nat (List.length l)) in
    chain val ++ js " " ++ decimal val ++ js " "
  end.

(** The sample an advertisement carries, when the discover handler accepts
    it. *)
Definition sampleOf (adv : Advertisement) : option N :=
  match localName adv, manufacturerData adv with
  | Some name, Some buf =>
    if startsWith (js "BLECAST_BL") name then
      match nth_error buf 5, nth_error buf 4 with
      | Some hi, Some lo => Some (hi * 256 + lo)
      | _, _ => None
      end
    else None
  | _, _ => None
  end.

(** The advertisement passes the guard of the discover handler with fewer
    than 6 bytes of manufacturer data. *)
Definition shortData (adv : Advertisement) : bool :=
  match localName adv, manufacturerData adv with
  | Some name, Some buf =>
    startsWith (js "BLECAST_BL") name && Nat.ltb (List.length buf) 6
  | _, _ => false
  end.

Definition samplesOf (advs : list Advertisement) : list N :=
  flat_map (fun adv => match sampleOf adv with Some v => [v] | None => [] end) advs.

Definition missingProperty : jserror :=
  mkError KTypeError (js "Cannot read property 'dashboard_data' of undefined").

Definition constAssignment : jserror :=
  mkError KTypeError (js "Assignment to constant variable.").

(** How the station-data step ends for a station answer and a sample
    buffer: the fragment it resolves with, or the exception its callback
    throws. *)
Definition weatherOutcome (ans : StationsData) (l : list N) : completion jsstring :=
  match err ans, devices ans with
  | Some _, _ => Normal (luxSummary l ++ js "Netatmo error! ")
  | None, [] => Uncaught missingProperty
  | None, dev :: _ =>
    match dashboard_data dev with
    | Some data => Normal (luxSummary l ++ snapshot (js "dB ") data)
    | None => Normal (luxSummary l)
    end
  end.

(** What [_getBraviaStatus] resolves with for the two answers of the TV. *)
Definition braviaBody (power : answer PowerStatus) (info : answer ContentInfo)
    : jsstring :=
  match power with
  | Rejected _ => js "?"
  | Fulfilled p =>
    if jseqb (power_status p) (js "active") then
      match info with
      | Rejected _ => js "?"
      | Fulfilled i =>
        match programTitle i with
        | Some (c :: t) => title i ++ js ": " ++ replaceInvalid (c :: t)
        | _ => title i
        end
      end
    else power_status p
  end.

(** What [_getBraviaStatus] logs: a warning when a request failed. *)
Definition braviaLog (power : answer PowerStatus) (info : answer ContentInfo)
    : list event :=
  match power with
  | Rejected _ => [Log LWarn (js "Bravia err")]
  | Fulfilled p =>
    if jseqb (power_status p) (js "active") then
      match info with
      | Rejected _ => [Log LWarn (js "Bravia err")]
      | Fulfilled _ => []
      end
    else []
  end.

(** The log entry the read handler of the camera starts with. *)
Definition camLog (camErr : option jserror) : event :=
  match camErr with
  | Some e => Log LError (message e)
  | None => Log LInfo (js "cam saved: %s (%d)")
  end.

(** The number of stimuli of a run that are no beacon events. *)
Definition ticks (l : list stimulus) : nat :=
  List.length (filter (fun i => negb (isDiscover i)) l).

(** What the station-data step logs. *)
Definition weatherLog (ans : StationsData) : list event :=
  match err ans, devices ans with
  | None, dev :: _ =>
    match dashboard_data dev with
    | Some _ => []
    | None => [Log LWarn (js "data: %j")]
    end
  | _, _ => []
  end.

(** ** The claim's reading of the display fragment

    Private-use code points: the block Private Use Area of the BMP and the
    two private-use planes 15 and 16. *)
Definition privateUseCodePoint (cp : N) : bool :=
  inRange 0xE000 0xF8FF cp || inRange 0xF0000 0xFFFFD cp || inRange 0x100000 0x10FFFD cp.

(** Emoji and pictograph code points, by block: Miscellaneous Symbols
    (U+2600..), Dingbats (U+2700..), Miscellaneous Symbols and Pictographs
    (U+1F300..), Emoticons (U+1F600..), Transport and Map Symbols
    (U+1F680..), Supplemental Symbols and Pictographs (U+1F900..). *)
Definition emojiCodePoint (cp : N) : bool :=
  inRange 0x2600 0x26FF cp || inRange 0x2700 0x27BF cp
  || inRange 0x1F300 0x1F5FF cp || inRange 0x1F600 0x1F64F cp
  || inRange 0x1F680 0x1F6FF cp || inRange 0x1F900 0x1F9FF cp.

(** The text with every private-use and every emoji or pictograph code
    point removed. *)
Definition claimedStripped (s : jsstring) : jsstring :=
  flat_map snd
    (filter (fun p => negb (privateUseCodePoint (fst p) || emojiCodePoint (fst p)))
            (codePoints s)).

(** The display fragment as the claim states it. *)
Definition claimedDisplayFragment (power : answer PowerStatus) (info : answer ContentInfo)
    : jsstring :=
  js "📺 " ++
  match power with
  | Rejected _ => js "?"
  | Fulfilled p =>
    if jseqb (power_status p) (js "active") then
      match info with
      | Rejected _ => js "?"
      | Fulfilled i =>
        match programTitle i with
        | Some (c :: t) => title i ++ js ": " ++ claimedStripped (c :: t)
        | _ => title i
        end
      end
    else power_status p
  end.

(** ** The display turn on answers that lack a field

    [VariantA] takes the answers of the TV with their fields.  Here a field
    of a fulfilled answer may be missing ([None], the value [undefined]), as
    in a malformed answer; the code is that of lines 132-150 and 227-243. *)
Module FieldLess.

Record PowerAnswer := mkPowerAnswer { status_field : option jsstring }.

Record ContentAnswer := mkContentAnswer {
  title_field : option jsstring;
  programTitle_field : option jsstring
}.

(** The string a value that is a string or [undefined] converts to. *)
Definition stringOf (v : option jsstring) : jsstring :=
  match v with
  | Some s => s
  | None => js "undefined"
  end.

(** [power.status == 'active'] *)
Definition isActive (v : option jsstring) : bool :=
  match v with
  | Some s => jseqb s (js "active")
  | None => false
  end.

(** [_getBraviaStatus], lines 227-243; it returns a string or
    [undefined]. *)
Definition _getBraviaStatus (power : answer PowerAnswer) (info : answer ContentAnswer)
    : Js (option jsstring) :=
  try_catch
    (p <- await power ;;
     if isActive (status_field p) then
       i <- await info ;;
       let status := title_field i in
       match programTitle_field i with
       | Some (c :: t) => ret (Some (stringOf status ++ js ": " ++ replaceInvalid (c :: t)))
       | _ => ret status
       end
     else ret (status_field p))
    (fun e => emit (Log LWarn (js "Bravia err")) ;; ret (Some (js "?"))).

(** [updateBraviaStatus], lines 132-150 *)
Definition updateBraviaStatus (power : answer PowerAnswer) (info : answer ContentAnswer)
    (now : N) (postErr : option jserror) : Js unit :=
  braviaStatus' <-
    try_catch
      (status <- _getBraviaStatus power info ;; ret (js "📺 " ++ stringOf status))
      (fun e => emit (Log LError (js "%j")) ;; ret (js "📺 " ++ message e)) ;;
  cur <- gets braviaStatus ;;
  if jseqb cur braviaStatus' then ret tt
  else
    modify (setBraviaStatus braviaStatus') ;;
    text <- gets composite ;;
    try_catch (VariantA._tweet now postErr text None)
              (fun e => emit (Log LError (js "%j"))).

(** An answer with all its fields. *)
Definition withFieldsP (power : answer PowerStatus) : answer PowerAnswer :=
  match power with
  | Fulfilled p => Fulfilled (mkPowerAnswer (Some (power_status p)))
  | Rejected e => Rejected e
  end.

Definition withFieldsI (info : answer ContentInfo) : answer ContentAnswer :=
  match info with
  | Fulfilled i => Fulfilled (mkContentAnswer (Some (title i)) (programTitle i))
  | Rejected e => Rejected e
  end.

End FieldLess.

(** ** Basic facts *)

Example js_asleep : js "💡💤" = [0xD83D; 0xDCA1; 0xD83D; 0xDCA4].
Proof. reflexivity. Qed.

Example js_sun : js "☀️" = [0x2600; 0xFE0F].
Proof. reflexivity. Qed.

Example js_clock : js " ⏰ " = [0x20; 0x23F0; 0x20].
Proof. reflexivity. Qed.

Example decimal_308 : decimal 308 = [0x33; 0x30; 0x38].
Proof. reflexivity. Qed.

Lemma jseqb_true (a b : jsstring) : jseqb a b = true <-> a = b.
Proof.
  unfold jseqb. destruct (list_eq_dec N.eq_dec a b); split; congruence.
Qed.

Lemma jseqb_false (a b : jsstring) : jseqb a b = false <-> a <> b.
Proof.
  unfold jseqb. destruct (list_eq_dec N.eq_dec a b); split; congruence.
Qed.

Lemma jseqb_refl (a : jsstring) : jseqb a a = true.
Proof. now apply jseqb_true. Qed.

Lemma publishes_app (t u : list event) : publishes (t ++ u) = publishes t ++ publishes u.
Proof.
  induction t as [|ev t IH]; simpl; [reflexivity|].
  destruct ev; simpl; now rewrite IH.
Qed.

Lemma timers_app (t u : list event) : timers (t ++ u) = timers t ++ timers u.
Proof.
  induction t as [|ev t IH]; simpl; [reflexivity|].
  destruct ev; simpl; now rewrite IH.
Qed.

Lemma fold_add_acc (l : list N) (a : N) :
  fold_left (fun memo lux => memo + lux) l a = a + sum l.
Proof.
  revert a. induction l as [|x l IH]; intros a; simpl.
  - lia.
  - rewrite IH. lia.
Qed.

Lemma reduce_is_sum (l : list N) : fold_left (fun memo lux => memo + lux) l 0 = sum l.
Proof. now rewrite fold_add_acc. Qed.

Lemma Math_round_div_rounds (total n : N) :
  0 < n -> rounded_mean total n (Math_round_div total n).
Proof.
  intros Hn. unfold rounded_mean, Math_round_div.
  assert (Hn2 : 2 * n <> 0) by lia.
  pose proof (N.div_mod (2 * total + n) (2 * n) Hn2) as Hd.
  pose proof (N.mod_lt (2 * total + n) (2 * n) Hn2) as Hm.
  set (q := (2 * total + n) / (2 * n)) in *.
  set (r := (2 * total + n) mod (2 * n)) in *.
  split.
  - replace (2 * n * q) with (2 * total + n - r) by lia. lia.
  - lia.
Qed.

Lemma length_pos {A} (l : list A) : l <> [] -> 0 < N.of_nat (List.length l).
Proof. destruct l; [congruence | simpl; lia]. Qed.

(** ** The Light-Level Sampler *)

Lemma chain_bucket (v : N) : bucket_of v (chain v).
Proof.
  unfold bucket_of, chain.
  destruct (2750 <? v) eqn:H1; [apply N.ltb_lt in H1 | apply N.ltb_ge in H1];
  destruct (2000 <? v) eqn:H2; [apply N.ltb_lt in H2 | apply N.ltb_ge in H2 | apply N.ltb_lt in H2 | apply N.ltb_ge in H2];
  destruct (1000 <? v) eqn:H3; try apply N.ltb_lt in H3; try apply N.ltb_ge in H3;
  destruct (500 <? v) eqn:H4; try apply N.ltb_lt in H4; try apply N.ltb_ge in H4;
  destruct (100 <? v) eqn:H5; try apply N.ltb_lt in H5; try apply N.ltb_ge in H5;
  destruct (10 <? v) eqn:H6; try apply N.ltb_lt in H6; try apply N.ltb_ge in H6;
  repeat split; intros; try reflexivity; exfalso; lia.
Qed.

Lemma calcLux_empty (s : App) :
  luxes s = [] -> VariantA._calcLux s = (Normal asleep, s, []).
Proof.
  intros H. unfold VariantA._calcLux, bind, gets. rewrite H. reflexivity.
Qed.

Lemma calcLux_nonempty (s : App) :
  luxes s <> [] ->
  let val := Math_round_div (sum (luxes s)) (N.of_nat (List.length (luxes s))) in
  VariantA._calcLux s
  = (Normal (chain val ++ js " " ++ decimal val ++ js " "), setLuxes [] s, []).
Proof.
  intros H val. unfold VariantA._calcLux, bind, gets.
  pose proof (length_pos (luxes s) H) as Hpos.
  destruct (N.of_nat (List.length (luxes s)) =? 0) eqn:E.
  - apply N.eqb_eq in E. lia.
  - rewrite reduce_is_sum. reflexivity.
Qed.

Lemma calcLux_agree (s : App) : VariantA._calcLux s = VariantB._calcLux s.
Proof. reflexivity. Qed.

Lemma parseNetatmoDevice_agree (d : option Device) (s : App) :
  VariantA.parseNetatmoDevice d s = VariantB.parseNetatmoDevice d s.
Proof. reflexivity. Qed.

(** C3: for a non-empty sample buffer [_calcLux] (both variants) returns
    ["<emoji> <mean> "], where <mean> is the arithmetic mean of the samples
    rounded to the nearest integer and <emoji> is chosen by the strict
    thresholds 2750, 2000, 1000, 500, 100, 10; a mean equal to a threshold
    falls in the lower bucket. *)
Theorem C3_calcLux_mean_and_bucket (s : App) :
  luxes s <> [] ->
  exists val emoji,
    rounded_mean (sum (luxes s)) (N.of_nat (List.length (luxes s))) val /\
    bucket_of val emoji /\
    outcome (VariantA._calcLux s) = Normal (emoji ++ js " " ++ decimal val ++ js " ") /\
    outcome (VariantB._calcLux s) = Normal (emoji ++ js " " ++ decimal val ++ js " ") /\
    (val = 2750 -> emoji = js "🌤") /\
    (val = 2000 -> emoji = js "⛅️") /\
    (val = 1000 -> emoji = js "☁️") /\
    (val = 500 -> emoji = js "💡") /\
    (val = 100 -> emoji = js "🕯") /\
    (val = 10 -> emoji = js "👻").
Proof.
  intros H.
  exists (Math_round_div (sum (luxes s)) (N.of_nat (List.length (luxes s)))).
  exists (chain (Math_round_div (sum (luxes s)) (N.of_nat (List.length (luxes s))))).
  split; [apply Math_round_div_rounds, length_pos, H|].
  split; [apply chain_bucket|].
  change (VariantB._calcLux s) with (VariantA._calcLux s).
  rewrite (calcLux_nonempty s H).
  repeat split; intros ->; reflexivity.
Qed.

Lemma C3_witness :
  luxes (mkApp [308; 309] [] []) <> [] /\
  exists val emoji,
    rounded_mean (sum [308; 309]) 2 val /\
    bucket_of val emoji /\
    outcome (VariantA._calcLux (mkApp [308; 309] [] []))
      = Normal (emoji ++ js " " ++ decimal val ++ js " ") /\
    outcome (VariantB._calcLux (mkApp [308; 309] [] []))
      = Normal (emoji ++ js " " ++ decimal val ++ js " ") /\
    (val = 2750 -> emoji = js "🌤") /\
    (val = 2000 -> emoji = js "⛅️") /\
    (val = 1000 -> emoji = js "☁️") /\
    (val = 500 -> emoji = js "💡") /\
    (val = 100 -> emoji = js "🕯") /\
    (val = 10 -> emoji = js "👻").
Proof.
  split.
  - discriminate.
  - apply (C3_calcLux_mean_and_bucket (mkApp [308; 309] [] [])). discriminate.
Defined.

(** The boundary means, run: samples whose mean is exactly a threshold. *)
Example calcLux_boundaries :
  map (fun v => outcome (VariantA._calcLux (mkApp [v; v] [] [])))
      [2750; 2000; 1000; 500; 100; 10]
  = [Normal (js "🌤 2750 "); Normal (js "⛅️ 2000 "); Normal (js "☁️ 1000 ");
     Normal (js "💡 500 "); Normal (js "🕯 100 "); Normal (js "👻 10 ")].
Proof. reflexivity. Qed.

(** A half is rounded up: the mean of 308 and 309 is printed as 309. *)
Example calcLux_half_up :
  outcome (VariantA._calcLux (mkApp [308; 309] [] [])) = Normal (js "💡 309 ").
Proof. reflexivity. Qed.

(** C9: with an empty buffer [_calcLux] returns the asleep fragment and
    divides nothing; whenever it divides, the divisor (the number of
    samples) is positive; after every call the buffer is empty, so a second
    call with no sample in between returns the asleep fragment. *)
Theorem C9_calcLux_drains (s : App) :
  ((luxes s = [] /\ VariantA._calcLux s = (Normal asleep, s, []))
   \/ (0 < N.of_nat (List.length (luxes s)) /\
       exists emoji,
         outcome (VariantA._calcLux s)
         = Normal (emoji ++ js " "
                   ++ decimal (Math_round_div (sum (luxes s)) (N.of_nat (List.length (luxes s))))
                   ++ js " "))) /\
  luxes (final (VariantA._calcLux s)) = [] /\
  outcome (VariantA._calcLux (final (VariantA._calcLux s))) = Normal asleep /\
  VariantB._calcLux s = VariantA._calcLux s.
Proof.
  change (VariantB._calcLux s) with (VariantA._calcLux s).
  destruct (luxes s) as [|x l] eqn:E.
  - assert (H : luxes s = []) by exact E.
    rewrite (calcLux_empty s H). unfold final, outcome. cbn [fst snd].
    rewrite (calcLux_empty s H). cbn [fst snd].
    repeat split; auto.
  - assert (H : luxes s <> []) by (rewrite E; discriminate).
    pose proof (calcLux_nonempty s H) as Hc. cbv zeta in Hc. rewrite E in Hc.
    rewrite Hc. unfold final, outcome. cbn [fst snd].
    split; [|split; [reflexivity | split; [|reflexivity]]].
    + right. split; [cbn [List.length]; lia|]. eexists. reflexivity.
    + rewrite calcLux_empty; reflexivity.
Qed.

(** C10: the two variants define the same [_calcLux] and the same
    [parseNetatmoDevice]: equal results (returned string, state, log) on
    every input and every sampler state. *)
Theorem C10_variants_agree :
  (forall s : App, VariantA._calcLux s = VariantB._calcLux s) /\
  (forall (d : option Device) (s : App),
      VariantA.parseNetatmoDevice d s = VariantB.parseNetatmoDevice d s).
Proof.
  split.
  - intros s. unfold VariantA._calcLux, VariantB._calcLux. reflexivity.
  - intros d s. unfold VariantA.parseNetatmoDevice, VariantB.parseNetatmoDevice.
    reflexivity.
Qed.

(** ** The beacon feed *)

Lemma onDiscoverA_cases (adv : Advertisement) (s : App) :
  VariantA.onDiscover adv s =
  let entry := Log LVerbose (js "peripheral.advertisement:%j") in
  match localName adv, manufacturerData adv with
  | Some name, Some buf =>
    if startsWith (js "BLECAST_BL") name then
      match nth_error buf 5, nth_error buf 4 with
      | Some hi, Some lo =>
        (Normal tt, setLuxes (luxes s ++ [hi * 256 + lo]) s,
         [entry; Log LVerbose (js "MEASURE: %s %d")])
      | _, _ => (Throw outOfRange, s, [entry])
      end
    else (Normal tt, s, [entry])
  | _, _ => (Normal tt, s, [entry])
  end.
Proof.
  unfold VariantA.onDiscover, bind, emit, readUInt8, modify, ret, throw.
  destruct adv as [[name|] [buf|]]; cbn [localName manufacturerData isString matchBlecast absent negb orb];
    try reflexivity.
  - destruct (startsWith (js "BLECAST_BL") name); cbn [negb orb]; [|reflexivity].
    destruct (nth_error buf 5) as [hi|]; [|reflexivity].
    destruct (nth_error buf 4) as [lo|]; reflexivity.
  - destruct (startsWith (js "BLECAST_BL") name); reflexivity.
Qed.

Lemma onDiscoverB_cases (adv : Advertisement) (s : App) :
  VariantB.onDiscover adv s =
  let entry := Log LVerbose (js "peripheral.advertisement:%j") in
  match localName adv, manufacturerData adv with
  | Some name, Some buf =>
    if startsWith (js "BLECAST_BL") name then
      match nth_error buf 5, nth_error buf 4 with
      | Some hi, Some lo =>
        (Normal tt, setLuxes (luxes s ++ [hi * 256 + lo]) s,
         [entry; Log LInfo (js "MEASURE: %s %d")])
      | _, _ => (Throw outOfRange, s, [entry])
      end
    else (Normal tt, s, [entry])
  | _, _ => (Normal tt, s, [entry])
  end.
Proof.
  unfold VariantB.onDiscover, bind, emit, readUInt8, modify, ret, throw.
  destruct adv as [[name|] [buf|]]; cbn [localName manufacturerData isString matchBlecast absent negb orb];
    try reflexivity.
  - destruct (startsWith (js "BLECAST_BL") name); cbn [negb orb]; [|reflexivity].
    destruct (nth_error buf 5) as [hi|]; [|reflexivity].
    destruct (nth_error buf 4) as [lo|]; reflexivity.
  - destruct (startsWith (js "BLECAST_BL") name); reflexivity.
Qed.

Lemma nth_error_nth_default (buf : list N) (i : nat) :
  (i < List.length buf)%nat -> nth_error buf i = Some (nth i buf 0).
Proof.
  revert i. induction buf as [|b buf IH]; intros i H; simpl in H.
  - lia.
  - destruct i as [|i]; simpl; [reflexivity|]. apply IH. lia.
Qed.

Lemma nth_error_beyond (buf : list N) (i : nat) :
  (List.length buf <= i)%nat -> nth_error buf i = None.
Proof. intros H. now apply nth_error_None. Qed.

(** C4 fails on the code: the guard of the handler tests the name and the
    presence of manufacturer data, not its length.  On a matching name with
    three bytes of manufacturer data [data.readUInt8(5)] is out of range:
    the handler (both variants) throws a RangeError and records nothing. *)
Theorem C4_short_data_faults :
  outcome (VariantA.onDiscover shortAdvertisement newApp) = Throw outOfRange /\
  outcome (VariantB.onDiscover shortAdvertisement newApp) = Throw outOfRange /\
  luxes (final (VariantA.onDiscover shortAdvertisement newApp)) = [] /\
  luxes (final (VariantB.onDiscover shortAdvertisement newApp)) = [].
Proof. repeat split. Qed.

(** What the handler does on every event: a sample is recorded exactly
    when the name is a string that starts with BLECAST_BL and manufacturer
    data is present with at least 6 bytes, and it is byte 5 * 256 + byte 4
    (308 for bytes [_, _, _, _, 0x34, 0x01]); the handler ends normally,
    recording nothing, when the name does not match or the data is absent;
    on a matching name with data shorter than 6 bytes it throws and records
    nothing. *)
Lemma discover_sample (adv : Advertisement) (s : App) :
  let rA := VariantA.onDiscover adv s in
  let rB := VariantB.onDiscover adv s in
  (forall name buf,
      localName adv = Some name -> startsWith (js "BLECAST_BL") name = true ->
      manufacturerData adv = Some buf -> (6 <= List.length buf)%nat ->
      outcome rA = Normal tt /\ outcome rB = Normal tt /\
      final rA = setLuxes (luxes s ++ [nth 5 buf 0 * 256 + nth 4 buf 0]) s /\
      final rB = final rA) /\
  (forall name buf,
      localName adv = Some name -> startsWith (js "BLECAST_BL") name = true ->
      manufacturerData adv = Some buf -> (List.length buf < 6)%nat ->
      outcome rA = Throw outOfRange /\ outcome rB = Throw outOfRange /\
      final rA = s /\ final rB = s) /\
  (matchBlecast (localName adv) = false \/ manufacturerData adv = None ->
      outcome rA = Normal tt /\ outcome rB = Normal tt /\
      final rA = s /\ final rB = s) /\
  (forall name b0 b1 b2 b3,
      startsWith (js "BLECAST_BL") name = true ->
      luxes (final (VariantA.onDiscover
                      (mkAdv (Some name) (Some [b0; b1; b2; b3; 0x34; 0x01])) s))
      = luxes s ++ [308]).
Proof.
  intros rA rB. subst rA rB.
  rewrite onDiscoverA_cases, onDiscoverB_cases. cbv zeta.
  split; [|split; [|split]].
  - intros name buf Hn Hm Hd Hl. rewrite Hn, Hd, Hm.
    rewrite (nth_error_nth_default buf 5), (nth_error_nth_default buf 4) by lia.
    repeat split.
  - intros name buf Hn Hm Hd Hl. rewrite Hn, Hd, Hm.
    rewrite (nth_error_beyond buf 5) by lia. repeat split.
  - intros [Hm | Hd].
    + destruct (localName adv) as [name|]; [unfold matchBlecast in Hm; rewrite Hm|];
        destruct (manufacturerData adv); repeat split.
    + rewrite Hd. destruct (localName adv); repeat split.
  - intros name b0 b1 b2 b3 Hm. rewrite onDiscoverA_cases. cbv zeta.
    cbn [localName manufacturerData]. rewrite Hm. reflexivity.
Qed.

(** Bytes 0x34 (offset 4) and 0x01 (offset 5) give the sample 308, and the
    next drain prints it. *)
Example discover_308 :
  let adv := mkAdv (Some (js "BLECAST_BL_1")) (Some [0x4C; 0x00; 0x02; 0x15; 0x34; 0x01]) in
  final (VariantA.onDiscover adv newApp) = setLuxes [308] newApp /\
  outcome (VariantA._calcLux (final (VariantA.onDiscover adv newApp))) = Normal (js "💡 308 ").
Proof. split; reflexivity. Qed.


(** ** The Weather Snapshot Builder *)

Lemma parseNetatmoDevice_present (dev : Device) (data : Dashboard) (s : App) :
  dashboard_data dev = Some data ->
  VariantA.parseNetatmoDevice (Some dev) s = (Normal (snapshot (js "dB ") data), s, []).
Proof.
  intros H. unfold VariantA.parseNetatmoDevice. rewrite H.
  unfold ret, snapshot, subfragment. cbn [fold_left emoji unit_ rkey prop].
  unfold empty. cbn [app].
  repeat rewrite <- app_assoc. reflexivity.
Qed.

Lemma parseNetatmoDevice_absent (dev : Device) (s : App) :
  dashboard_data dev = None ->
  VariantA.parseNetatmoDevice (Some dev) s = (Normal [], s, [Log LWarn (js "data: %j")]).
Proof.
  intros H. unfold VariantA.parseNetatmoDevice. rewrite H. reflexivity.
Qed.

(** C7, as stated, fails: with the unit of Noise being "dB" the claimed
    concatenation ends in one space, the returned fragment in two. *)
Lemma C7_counterexample :
  outcome (VariantA.parseNetatmoDevice (Some (mkDevice (Some exampleReading))) newApp)
  <> Normal (snapshot (js "dB") exampleReading) /\
  outcome (VariantA.parseNetatmoDevice (Some (mkDevice (Some exampleReading))) newApp)
  = Normal (js "🌡 21℃ 💧 55% 🎈 1008hPa 🌳 450ppm 🔊 40dB  ").
Proof.
  split; [|reflexivity].
  intros H. apply (f_equal (fun c => match c with
                                     | Normal f => List.length f
                                     | _ => O
                                     end)) in H.
  vm_compute in H. discriminate.
Qed.

(** C7, amended: when the reading object is present, [parseNetatmoDevice]
    (both variants) returns the concatenation of the sub-fragments
    ["<emoji> <value><unit> "] in the order Temperature (℃), Humidity (%),
    Pressure (hPa), CO2 (ppm), Noise, where the unit string of Noise is
    "dB " with a trailing space, so the fragment ends in two spaces; when
    the reading object is absent it returns the empty fragment and only logs
    a warning.  The state is untouched either way. *)
Theorem C7_parseNetatmoDevice_order (dev : Device) (s : App) :
  (forall data, dashboard_data dev = Some data ->
     VariantA.parseNetatmoDevice (Some dev) s = (Normal (snapshot (js "dB ") data), s, []) /\
     VariantB.parseNetatmoDevice (Some dev) s = (Normal (snapshot (js "dB ") data), s, [])) /\
  (dashboard_data dev = None ->
     VariantA.parseNetatmoDevice (Some dev) s = (Normal empty, s, [Log LWarn (js "data: %j")]) /\
     VariantB.parseNetatmoDevice (Some dev) s = (Normal empty, s, [Log LWarn (js "data: %j")])).
Proof.
  change (VariantB.parseNetatmoDevice (Some dev) s)
    with (VariantA.parseNetatmoDevice (Some dev) s).
  split.
  - intros data H. split; apply parseNetatmoDevice_present, H.
  - intros H. split; apply parseNetatmoDevice_absent, H.
Qed.

Lemma C7_witness :
  VariantA.parseNetatmoDevice (Some (mkDevice (Some exampleReading))) newApp
  = (Normal (snapshot (js "dB ") exampleReading), newApp, []) /\
  VariantB.parseNetatmoDevice (Some (mkDevice (Some exampleReading))) newApp
  = (Normal (snapshot (js "dB ") exampleReading), newApp, []).
Proof.
  apply (proj1 (C7_parseNetatmoDevice_order (mkDevice (Some exampleReading)) newApp)
               exampleReading).
  reflexivity.
Defined.

(** ** The Publisher *)

Lemma tweetA_run (now : N) (postErr : option jserror) (text : jsstring)
    (media : option jsstring) (s : App) :
  VariantA._tweet now postErr text media s =
  let st := mkTweet (stamped text now) (if truthy media then media else None) in
  match postErr with
  | Some e => (Throw e, s, [StatusesUpdate st])
  | None => (Normal tt, s, [StatusesUpdate st; Log LInfo (js "POST: %j")])
  end.
Proof. destruct postErr; reflexivity. Qed.

Lemma tweetB_run (now : N) (postErr : option jserror) (text : jsstring)
    (media : option jsstring) (s : App) :
  VariantB._tweet now postErr text media s =
  let st := mkTweet (stamped text now) (if truthy media then media else None) in
  (Normal tt, s,
   match postErr with
   | Some _ => [StatusesUpdate st; Log LError (js "Error: %j")]
   | None => [StatusesUpdate st; Log LInfo (js "POST: %j")]
   end).
Proof. destruct postErr; reflexivity. Qed.

(** C8: for every status text and optional media handle, [_tweet] (both
    variants) makes one status-post call; the posted text is the given text
    followed by the separator " ⏰ ", the clock in whole epoch seconds and
    "UTC"; the posted record carries the handle when one was provided (a
    truthy [media_ids]: a non-empty string) and none otherwise. *)
Theorem C8_tweet_record (now : N) (postErr : option jserror) (text : jsstring)
    (media : option jsstring) (s : App) :
  let posted :=
    mkTweet (text ++ js " ⏰ " ++ decimal (now / 1000) ++ js "UTC")
            (if truthy media then media else None) in
  publishes (trace (VariantA._tweet now postErr text media s)) = [posted] /\
  publishes (trace (VariantB._tweet now postErr text media s)) = [posted].
Proof.
  rewrite tweetA_run, tweetB_run. destruct postErr; split; reflexivity.
Qed.

Example tweet_example :
  publishes (trace (VariantA._tweet 1700000000999 None (js "📺 standby") (Some (js "42")) newApp))
  = [mkTweet (js "📺 standby ⏰ 1700000000UTC") (Some (js "42"))].
Proof. reflexivity. Qed.

(** ** The display fragment *)

Lemma inRange_spec (lo hi c : N) : inRange lo hi c = true <-> lo <= c <= hi.
Proof.
  unfold inRange. rewrite andb_true_iff, !N.leb_le. tauto.
Qed.

Lemma inRange_false (lo hi c : N) : inRange lo hi c = false <-> c < lo \/ hi < c.
Proof.
  unfold inRange. rewrite andb_false_iff, !N.leb_gt. tauto.
Qed.

Ltac ranges :=
  repeat match goal with
  | H : inRange _ _ _ = true |- _ => apply inRange_spec in H
  | H : inRange _ _ _ = false |- _ => apply inRange_false in H
  | H : (_ =? _) = true |- _ => apply N.eqb_eq in H
  | H : (_ =? _) = false |- _ => apply N.eqb_neq in H
  | H : _ && _ = true |- _ => apply andb_true_iff in H; destruct H
  | H : _ && _ = false |- _ => apply andb_false_iff in H; destruct H
  | H : _ || _ = true |- _ => apply orb_true_iff in H; destruct H
  | H : _ || _ = false |- _ => apply orb_false_iff in H; destruct H
  end.

Lemma single_kept_iff (c : N) :
  c < 0x10000 -> kept (c, [c]) = negb (inRange 0xE000 0xF8FF c).
Proof.
  intros H. unfold kept, privateUse, pictograph. cbn [fst].
  destruct (inRange 0x1F300 0x1F5FF c) eqn:E; [ranges; lia|].
  now rewrite orb_false_r.
Qed.

Lemma pair_kept (c d : N) :
  isHighSurrogate c = true -> isLowSurrogate d = true ->
  kept (0x10000 + (c - 0xD800) * 0x400 + (d - 0xDC00), [c; d])
  = negb (((c =? 0xD83C) && inRange 0xDF00 0xDFFF d)
          || ((c =? 0xD83D) && inRange 0xDC00 0xDDFF d)).
Proof.
  unfold isHighSurrogate, isLowSurrogate, kept, privateUse, pictograph. cbn [fst].
  intros Hc Hd. ranges.
  destruct (inRange 0xE000 0xF8FF _) eqn:E1; [ranges; lia|]. cbn [orb].
  f_equal.
  destruct (inRange 0x1F300 0x1F5FF _) eqn:E2;
    destruct ((c =? 0xD83C) && inRange 0xDF00 0xDFFF d) eqn:E3;
    destruct ((c =? 0xD83D) && inRange 0xDC00 0xDDFF d) eqn:E4;
    try reflexivity; exfalso; ranges; lia.
Qed.

Lemma codePoints_single (c : N) (rest : jsstring) :
  match rest with
  | d :: _ => isHighSurrogate c && isLowSurrogate d = false
  | [] => True
  end ->
  codePoints (c :: rest) = (c, [c]) :: codePoints rest.
Proof.
  destruct rest as [|d rest']; intros H; cbn [codePoints]; [reflexivity|].
  now rewrite H.
Qed.

Lemma codePoints_pair (c d : N) (rest : jsstring) :
  isHighSurrogate c && isLowSurrogate d = true ->
  codePoints (c :: d :: rest)
  = (0x10000 + (c - 0xD800) * 0x400 + (d - 0xDC00), [c; d]) :: codePoints rest.
Proof. intros H. cbn [codePoints]. now rewrite H. Qed.

Lemma stripped_cons (p : N * jsstring) (ps : list (N * jsstring)) :
  flat_map snd (filter kept (p :: ps))
  = (if kept p then snd p else []) ++ flat_map snd (filter kept ps).
Proof. cbn [filter]. destruct (kept p); reflexivity. Qed.

Lemma replaceInvalid_low (d : N) (s : jsstring) :
  isLowSurrogate d = true -> replaceInvalid (d :: s) = d :: replaceInvalid s.
Proof.
  unfold isLowSurrogate. intros H. cbn [replaceInvalid].
  destruct (inRange 0xE000 0xF8FF d) eqn:E1; [ranges; lia|].
  destruct s as [|e s']; [reflexivity|].
  destruct ((d =? 0xD83C) && inRange 0xDF00 0xDFFF e) eqn:E2; [ranges; lia|].
  destruct ((d =? 0xD83D) && inRange 0xDC00 0xDDFF e) eqn:E3; [ranges; lia|].
  reflexivity.
Qed.

Lemma replaceInvalid_cons2 (c d : N) (s : jsstring) :
  replaceInvalid (c :: d :: s) =
  if inRange 0xE000 0xF8FF c then replaceInvalid (d :: s)
  else if (c =? 0xD83C) && inRange 0xDF00 0xDFFF d then replaceInvalid s
  else if (c =? 0xD83D) && inRange 0xDC00 0xDDFF d then replaceInvalid s
  else c :: replaceInvalid (d :: s).
Proof. reflexivity. Qed.

(** The regular expression, which works on code units, removes exactly the
    code points of the two blocks. *)
Lemma replaceInvalid_stripped (s : jsstring) :
  units16 s -> replaceInvalid s = stripped s.
Proof.
  enough (H : (units16 s -> replaceInvalid s = stripped s) /\
              (forall c, units16 (c :: s) -> replaceInvalid (c :: s) = stripped (c :: s)))
    by apply H.
  unfold stripped.
  induction s as [|d s [IH0 IH1]].
  - split; [reflexivity|].
    intros c Hc. apply Forall_inv in Hc.
    cbn [replaceInvalid codePoints]. rewrite stripped_cons.
    rewrite (single_kept_iff c Hc). cbn [snd flat_map filter].
    destruct (inRange 0xE000 0xF8FF c); reflexivity.
  - split; [apply IH1|].
    intros c Hc. pose proof (Forall_inv Hc) as Hc0. cbv beta in Hc0.
    apply Forall_inv_tail in Hc. pose proof (Forall_inv_tail Hc) as Hs.
    rewrite replaceInvalid_cons2.
    destruct (inRange 0xE000 0xF8FF c) eqn:E1.
    { rewrite codePoints_single, stripped_cons, (single_kept_iff c Hc0), E1.
      - cbn [negb app]. apply IH1, Hc.
      - unfold isHighSurrogate. destruct (inRange 0xD800 0xDBFF c) eqn:E; [ranges; lia|].
        reflexivity. }
    destruct (isHighSurrogate c && isLowSurrogate d) eqn:P.
    + rewrite (codePoints_pair c d s P), stripped_cons.
      apply andb_true_iff in P. destruct P as [Ph Pl].
      rewrite (pair_kept c d Ph Pl).
      destruct ((c =? 0xD83C) && inRange 0xDF00 0xDFFF d) eqn:E2;
        [cbn [orb negb app]; apply IH0, Hs|].
      destruct ((c =? 0xD83D) && inRange 0xDC00 0xDDFF d) eqn:E3;
        [cbn [orb negb app]; apply IH0, Hs|].
      cbn [orb negb snd app]. rewrite (replaceInvalid_low d s Pl).
      now rewrite (IH0 Hs).
    + rewrite (codePoints_single c (d :: s) P), stripped_cons,
              (single_kept_iff c Hc0), E1.
      cbn [negb snd app].
      assert (E2 : (c =? 0xD83C) && inRange 0xDF00 0xDFFF d = false).
      { destruct ((c =? 0xD83C) && inRange 0xDF00 0xDFFF d) eqn:E; [|reflexivity].
        unfold isHighSurrogate, isLowSurrogate in P. ranges; lia. }
      assert (E3 : (c =? 0xD83D) && inRange 0xDC00 0xDDFF d = false).
      { destruct ((c =? 0xD83D) && inRange 0xDC00 0xDDFF d) eqn:E; [|reflexivity].
        unfold isHighSurrogate, isLowSurrogate in P. ranges; lia. }
      rewrite E2, E3. f_equal. apply IH1, Hc.
Qed.

(** Emoji outside the two blocks stay: U+1F600 is kept, U+1F324 and
    U+E000 go. *)
Example replaceInvalid_example :
  replaceInvalid (js "News😀🌤 x" ++ [0xE000]) = js "News😀 x".
Proof. reflexivity. Qed.

Lemma getBraviaStatus_run (power : answer PowerStatus) (info : answer ContentInfo) (s : App) :
  exists b t,
    VariantA._getBraviaStatus power info s = (Normal b, s, t) /\
    publishes t = [] /\ timers t = [] /\ errorLogs t = [] /\ unhandled t = [] /\
    (titleUnits16 info -> js "📺 " ++ b = displayFragment power info).
Proof.
  unfold VariantA._getBraviaStatus, displayFragment, try_catch, bind, await, ret, throw, emit.
  destruct power as [p|e].
  - destruct (jseqb (power_status p) (js "active")).
    + destruct info as [i|e].
      * destruct (programTitle i) as [[|c t]|] eqn:E.
        -- do 2 eexists. repeat split; reflexivity.
        -- do 2 eexists. repeat split; try reflexivity.
           unfold titleUnits16. rewrite E. intros H.
           now rewrite (replaceInvalid_stripped (c :: t) H).
        -- do 2 eexists. repeat split; reflexivity.
      * do 2 eexists. repeat split; reflexivity.
    + do 2 eexists. repeat split; reflexivity.
  - do 2 eexists. repeat split; reflexivity.
Qed.

Lemma getBraviaStatus_agree (power : answer PowerStatus) (info : answer ContentInfo) (s : App) :
  VariantB._getBraviaStatus power info s = VariantA._getBraviaStatus power info s.
Proof. reflexivity. Qed.

(** One turn of the display loop, async variant: the fragment is computed,
    stored when it differs and then published once. *)
Lemma updateBraviaStatus_run (power : answer PowerStatus) (info : answer ContentInfo)
    (now : N) (postErr : option jserror) (s : App) :
  exists b t0,
    VariantA._getBraviaStatus power info s = (Normal b, s, t0) /\
    VariantA.updateBraviaStatus power info now postErr s =
    if jseqb (braviaStatus s) (js "📺 " ++ b) then (Normal tt, s, t0)
    else
      let s' := setBraviaStatus (js "📺 " ++ b) s in
      let st := mkTweet (stamped (composite s') now) None in
      (Normal tt, s',
       t0 ++ match postErr with
             | Some e => [StatusesUpdate st; Log LError (js "%j")]
             | None => [StatusesUpdate st; Log LInfo (js "POST: %j")]
             end).
Proof.
  destruct (getBraviaStatus_run power info s) as (b & t0 & E & _).
  exists b, t0. split; [exact E|].
  unfold VariantA.updateBraviaStatus.
  unfold bind at 1. unfold try_catch at 1. unfold bind at 1. rewrite E.
  unfold ret at 1. cbn [app]. rewrite app_nil_r.
  unfold bind at 1. unfold gets at 1.
  destruct (jseqb (braviaStatus s) (js "📺 " ++ b)).
  - unfold ret. cbn [app]. now rewrite app_nil_r.
  - unfold bind, modify, gets, try_catch. rewrite tweetA_run. cbv zeta.
    destruct postErr; unfold emit; cbn [app]; reflexivity.
Qed.

(** One turn of the display loop, callback variant. *)
Lemma startBraviaMonitor_run (power : answer PowerStatus) (info : answer ContentInfo)
    (now : N) (postErr : option jserror) (s : App) :
  exists b t0,
    VariantA._getBraviaStatus power info s = (Normal b, s, t0) /\
    VariantB.startBraviaMonitor power info now postErr s =
    if jseqb (braviaStatus s) (js "📺 " ++ b)
    then (Normal tt, s, t0 ++ [SetTimeout BraviaMonitor BRAVIA_INTERVAL])
    else
      let s' := setBraviaStatus (js "📺 " ++ b) s in
      let st := mkTweet (stamped (composite s') now) None in
      (Normal tt, s',
       t0 ++ match postErr with
             | Some e => [StatusesUpdate st; Log LError (js "Error: %j")]
             | None => [StatusesUpdate st; Log LInfo (js "POST: %j")]
             end ++ [SetTimeout BraviaMonitor BRAVIA_INTERVAL]).
Proof.
  destruct (getBraviaStatus_run power info s) as (b & t0 & E & _).
  exists b, t0. split; [exact E|].
  unfold VariantB.startBraviaMonitor.
  unfold bind at 1. rewrite getBraviaStatus_agree, E.
  unfold bind at 1. unfold gets at 1.
  destruct (jseqb (braviaStatus s) (js "📺 " ++ b)); cbn [negb].
  - unfold bind, ret, emit. cbn [app]. reflexivity.
  - unfold bind, modify, gets, emit. rewrite tweetB_run. cbv zeta.
    destruct postErr; cbn [app]; reflexivity.
Qed.

(** C6, amended: after every display-loop turn (both variants), for
    answers that carry their fields, the display fragment is the prefix
    "📺 " followed by: the raw power status when it is not "active"; when
    it is, the content title, followed - when a program title is present -
    by ": " and the program title with exactly the code points
    U+E000..U+F8FF (the block Private Use Area) and U+1F300..U+1F5FF (the
    block Miscellaneous Symbols and Pictographs) removed and every other
    code point, emoji of other blocks and the private-use planes included,
    left as it is; "?" when either request is rejected.  The turn ends
    normally whatever failed. *)
Theorem C6_display_fragment (power : answer PowerStatus) (info : answer ContentInfo)
    (now : N) (postErr : option jserror) (s : App) :
  titleUnits16 info ->
  let rA := VariantA.updateBraviaStatus power info now postErr s in
  let rB := VariantB.startBraviaMonitor power info now postErr s in
  braviaStatus (final rA) = displayFragment power info /\
  braviaStatus (final rB) = displayFragment power info /\
  outcome rA = Normal tt /\ outcome rB = Normal tt /\
  unhandled (trace rA) = [] /\ unhandled (trace rB) = [].
Proof.
  intros Hu rA rB. subst rA rB.
  destruct (getBraviaStatus_run power info s) as (b & t0 & E & _ & _ & _ & Hn & Hf).
  specialize (Hf Hu).
  destruct (updateBraviaStatus_run power info now postErr s) as (b1 & t1 & E1 & RA).
  destruct (startBraviaMonitor_run power info now postErr s) as (b2 & t2 & E2 & RB).
  rewrite E in E1, E2. inversion E1; subst b1 t1. inversion E2; subst b2 t2.
  rewrite RA, RB. rewrite Hf.
  assert (Hun : forall u, unhandled (t0 ++ u) = unhandled u).
  { intros u. clear - Hn. induction t0 as [|ev t0 IH]; [reflexivity|].
    destruct ev; simpl in *; try discriminate; auto. }
  destruct (jseqb (braviaStatus s) (displayFragment power info)) eqn:Eq.
  - apply jseqb_true in Eq. unfold final, outcome, trace. cbn [fst snd].
    rewrite !Hun. repeat split; assumption.
  - unfold final, outcome, trace. cbn [fst snd setBraviaStatus braviaStatus].
    rewrite !Hun. destruct postErr; repeat split.
Qed.

Lemma C6_witness :
  let power := Fulfilled (mkPower (js "active")) in
  let info := Fulfilled (mkInfo (js "NHK") (Some (js "News😀🌤 x"))) in
  let rA := VariantA.updateBraviaStatus power info 1000 None newApp in
  let rB := VariantB.startBraviaMonitor power info 1000 None newApp in
  braviaStatus (final rA) = displayFragment power info /\
  braviaStatus (final rB) = displayFragment power info /\
  outcome rA = Normal tt /\ outcome rB = Normal tt /\
  unhandled (trace rA) = [] /\ unhandled (trace rB) = [].
Proof.
  apply (C6_display_fragment
           (Fulfilled (mkPower (js "active")))
           (Fulfilled (mkInfo (js "NHK") (Some (js "News😀🌤 x")))) 1000 None newApp).
  unfold titleUnits16, units16. cbn [programTitle].
  vm_compute. repeat constructor.
Defined.

Example display_standby :
  braviaStatus (final (VariantA.updateBraviaStatus
                         (Fulfilled (mkPower (js "standby"))) (Rejected outOfRange)
                         1000 None newApp)) = js "📺 standby".
Proof. reflexivity. Qed.

Example display_title :
  displayFragment (Fulfilled (mkPower (js "active")))
                  (Fulfilled (mkInfo (js "NHK") (Some (js "News😀🌤 x"))))
  = js "📺 NHK: News😀 x".
Proof. reflexivity. Qed.

(** ** The weather loop *)

(** The station-data step: it only drains the sampler and may log a
    warning; its promise never rejects. *)
Lemma getNetatmoStationData_run (ans : StationsData) (s : App) :
  exists c l t,
    VariantA._getNetatmoStationData ans s
    = (c, mkApp l (netatmoStatus s) (braviaStatus s), t) /\
    quiet t /\ (forall e, c <> Throw e).
Proof.
  unfold VariantA._getNetatmoStationData, callback. unfold bind at 1.
  assert (Hc : exists v l, VariantA._calcLux s
                           = (Normal v, mkApp l (netatmoStatus s) (braviaStatus s), [])).
  { destruct (luxes s) as [|x l] eqn:E.
    - rewrite calcLux_empty by exact E. exists asleep, []. destruct s; simpl in *; now subst.
    - rewrite calcLux_nonempty by (rewrite E; discriminate). cbv zeta.
      eexists. exists []. reflexivity. }
  destruct Hc as (v & l & ->).
  destruct (err ans).
  - unfold ret. do 3 eexists. split; [reflexivity|]. split; [repeat split|discriminate].
  - unfold bind, VariantA.parseNetatmoDevice.
    destruct (nth_error (devices ans) 0) as [dev|].
    + destruct (dashboard_data dev).
      * unfold ret. do 3 eexists. split; [reflexivity|]. split; [repeat split|discriminate].
      * unfold bind, emit, ret. do 3 eexists. split; [reflexivity|].
        split; [repeat split|discriminate].
    + unfold throw. do 3 eexists. split; [reflexivity|]. split; [repeat split|discriminate].
Qed.

Lemma getNetatomoStationData_agree (ans : StationsData) (s : App) :
  VariantB._getNetatomoStationData ans s = VariantA._getNetatmoStationData ans s.
Proof. reflexivity. Qed.

(** One turn of the weather loop, async variant. *)
Lemma updateNetatmoStatus_run (ans : StationsData) (now : N) (postErr : option jserror)
    (s : App) :
  exists c l t0,
    VariantA._getNetatmoStationData ans s
    = (c, mkApp l (netatmoStatus s) (braviaStatus s), t0) /\ quiet t0 /\
    VariantA.updateNetatmoStatus ans now postErr s =
    let s1 := mkApp l (netatmoStatus s) (braviaStatus s) in
    match c with
    | Normal status =>
      if jseqb (netatmoStatus s) status then (Normal tt, s1, t0)
      else
        let s' := setNetatmoStatus status s1 in
        let st := mkTweet (stamped (composite s') now) None in
        (Normal tt, s',
         t0 ++ match postErr with
               | Some e => [StatusesUpdate st; UnhandledRejection e]
               | None => [StatusesUpdate st; Log LInfo (js "POST: %j")]
               end)
    | Throw e =>
      (Normal tt, setNetatmoStatus (message e) s1, t0 ++ [Log LError (message e)])
    | Uncaught e => (Uncaught e, s1, t0)
    end.
Proof.
  destruct (getNetatmoStationData_run ans s) as (c & l & t0 & E & Hq & Hc).
  exists c, l, t0. split; [exact E|]. split; [exact Hq|].
  unfold VariantA.updateNetatmoStatus, try_catch. unfold bind at 1. rewrite E.
  destruct c as [status|e|e]; [|destruct (Hc e); reflexivity|reflexivity].
  unfold bind at 1. unfold gets at 1. cbn [netatmoStatus].
  destruct (jseqb (netatmoStatus s) status); cbn [negb].
  - unfold ret. cbn [app]. now rewrite app_nil_r.
  - unfold bind, modify, gets, detached. rewrite tweetA_run. cbv zeta.
    destruct postErr; cbn [app]; reflexivity.
Qed.

(** One turn of the weather loop, callback variant: the fragment is stored
    and the timer re-armed; nothing else. *)
Lemma startNetatmoMonitor_run (ans : StationsData) (s : App) :
  exists c l t0,
    VariantA._getNetatmoStationData ans s
    = (c, mkApp l (netatmoStatus s) (braviaStatus s), t0) /\ quiet t0 /\
    VariantB.startNetatmoMonitor ans s =
    let s1 := mkApp l (netatmoStatus s) (braviaStatus s) in
    match c with
    | Normal status =>
      (Normal tt, setNetatmoStatus status s1,
       t0 ++ [SetTimeout NetatmoMonitor VariantB.NETATOMO_INTERVAL])
    | Throw e => (Throw e, s1, t0)
    | Uncaught e => (Uncaught e, s1, t0)
    end.
Proof.
  destruct (getNetatmoStationData_run ans s) as (c & l & t0 & E & Hq & Hc).
  exists c, l, t0. split; [exact E|]. split; [exact Hq|].
  unfold VariantB.startNetatmoMonitor. unfold bind at 1.
  rewrite getNetatomoStationData_agree, E.
  destruct c as [status|e|e]; try reflexivity.
Qed.

Lemma composite_netatmo_inj (a b c : jsstring) :
  a ++ js " " ++ c = b ++ js " " ++ c -> a = b.
Proof. rewrite !app_assoc. intros H. apply app_inv_tail in H. now apply app_inv_tail in H. Qed.

Lemma composite_bravia_inj (a b c : jsstring) :
  a ++ js " " ++ b = a ++ js " " ++ c -> b = c.
Proof. intros H. apply app_inv_head in H. now apply app_inv_head in H. Qed.

(** The de-duplication of the weather loop, async variant. *)
Lemma weatherA_dedup (ans : StationsData) (now : N) (postErr : option jserror) (s : App) :
  let r := VariantA.updateNetatmoStatus ans now postErr s in
  publishes (trace r)
  = if jseqb (composite (final r)) (composite s) then []
    else [mkTweet (stamped (composite (final r)) now) None].
Proof.
  cbv zeta.
  destruct (updateNetatmoStatus_run ans now postErr s) as (c & l & t0 & E & Hq & ->).
  destruct Hq as (Hp & _). cbv zeta.
  destruct c as [status|e|e].
  - destruct (jseqb (netatmoStatus s) status) eqn:Eq.
    + unfold final, trace. cbn [fst snd]. unfold composite at 1 2. cbn [netatmoStatus braviaStatus].
      now rewrite jseqb_refl.
    + unfold final, trace. cbn [fst snd]. rewrite publishes_app, Hp.
      assert (Hd : jseqb (composite (setNetatmoStatus status
                                       (mkApp l (netatmoStatus s) (braviaStatus s))))
                         (composite s) = false).
      { apply jseqb_false. unfold composite, setNetatmoStatus. cbn [netatmoStatus braviaStatus].
        intros H. apply composite_netatmo_inj in H. apply jseqb_false in Eq. congruence. }
      rewrite Hd. destruct postErr; reflexivity.
  - destruct (getNetatmoStationData_run ans s) as (c' & l' & t' & E' & _ & Hc).
    rewrite E in E'. inversion E'; subst. now destruct (Hc e).
  - unfold final, trace. cbn [fst snd]. unfold composite at 1 2. cbn [netatmoStatus braviaStatus].
    now rewrite jseqb_refl.
Qed.

(** The weather loop of the callback variant never publishes. *)
Lemma weatherB_silent (ans : StationsData) (s : App) :
  publishes (trace (VariantB.startNetatmoMonitor ans s)) = [].
Proof.
  destruct (startNetatmoMonitor_run ans s) as (c & l & t0 & _ & Hq & ->).
  destruct Hq as (Hp & _). cbv zeta.
  destruct c; unfold trace; cbn [snd]; [rewrite publishes_app, Hp|..]; auto.
Qed.

(** The de-duplication of the display loop, async variant. *)
Lemma displayA_dedup (power : answer PowerStatus) (info : answer ContentInfo)
    (now : N) (postErr : option jserror) (s : App) :
  let r := VariantA.updateBraviaStatus power info now postErr s in
  publishes (trace r)
  = if jseqb (composite (final r)) (composite s) then []
    else [mkTweet (stamped (composite (final r)) now) None].
Proof.
  cbv zeta.
  destruct (getBraviaStatus_run power info s) as (b & t0 & E & Hp & _).
  destruct (updateBraviaStatus_run power info now postErr s) as (b1 & t1 & E1 & ->).
  rewrite E in E1. inversion E1; subst b1 t1.
  destruct (jseqb (braviaStatus s) (js "📺 " ++ b)) eqn:Eq.
  - unfold final, trace. cbn [fst snd]. now rewrite jseqb_refl.
  - cbv zeta. unfold final, trace. cbn [fst snd]. rewrite publishes_app, Hp.
    assert (Hd : jseqb (composite (setBraviaStatus (js "📺 " ++ b) s)) (composite s) = false).
    { apply jseqb_false. unfold composite, setBraviaStatus. cbn [netatmoStatus braviaStatus].
      intros H. apply composite_bravia_inj in H. apply jseqb_false in Eq. congruence. }
    rewrite Hd. destruct postErr; reflexivity.
Qed.

(** The de-duplication of the display loop, callback variant. *)
Lemma displayB_dedup (power : answer PowerStatus) (info : answer ContentInfo)
    (now : N) (postErr : option jserror) (s : App) :
  let r := VariantB.startBraviaMonitor power info now postErr s in
  publishes (trace r)
  = if jseqb (composite (final r)) (composite s) then []
    else [mkTweet (stamped (composite (final r)) now) None].
Proof.
  cbv zeta.
  destruct (getBraviaStatus_run power info s) as (b & t0 & E & Hp & _).
  destruct (startBraviaMonitor_run power info now postErr s) as (b1 & t1 & E1 & ->).
  rewrite E in E1. inversion E1; subst b1 t1.
  destruct (jseqb (braviaStatus s) (js "📺 " ++ b)) eqn:Eq.
  - unfold final, trace. cbn [fst snd]. rewrite jseqb_refl, publishes_app, Hp. reflexivity.
  - cbv zeta. unfold final, trace. cbn [fst snd]. rewrite !publishes_app, Hp.
    assert (Hd : jseqb (composite (setBraviaStatus (js "📺 " ++ b) s)) (composite s) = false).
    { apply jseqb_false. unfold composite, setBraviaStatus. cbn [netatmoStatus braviaStatus].
      intros H. apply composite_bravia_inj in H. apply jseqb_false in Eq. congruence. }
    rewrite Hd. destruct postErr; reflexivity.
Qed.

(** C1, as stated, fails: in the callback variant a weather turn that
    computes a new composite publishes nothing. *)
Lemma C1_counterexample :
  let r := VariantB.startNetatmoMonitor exampleStations newApp in
  composite (final r) <> composite newApp /\
  List.length (publishes (trace r)) = 0%nat.
Proof.
  cbv zeta. split; [|reflexivity].
  apply jseqb_false. vm_compute. reflexivity.
Qed.

(** A second identical poll publishes nothing; the first one published
    once. *)
Example weather_second_poll :
  let r1 := VariantA.updateNetatmoStatus exampleStations 1000 None newApp in
  let r2 := VariantA.updateNetatmoStatus exampleStations 2000 None (final r1) in
  List.length (publishes (trace r1)) = 1%nat /\ publishes (trace r2) = [].
Proof. split; reflexivity. Qed.

(** ** Publication failures *)

(** C5 fails on the weather loop of the async variant: [_tweet] is called
    without [await], so when the status post rejects, the rejection is
    neither caught nor logged by the program; it is left unhandled. *)
Theorem C5_unawaited_rejection :
  let r := VariantA.updateNetatmoStatus exampleStations 1700000000000 (Some postFailure) newApp in
  List.length (publishes (trace r)) = 1%nat /\
  unhandled (trace r) = [postFailure] /\
  errorLogs (trace r) = [].
Proof. cbv zeta. repeat split. Qed.

(** The same holds whenever the weather fragment changed. *)
Lemma weatherA_rejection_unhandled (ans : StationsData) (now : N) (e : jserror) (s : App) :
  let r := VariantA.updateNetatmoStatus ans now (Some e) s in
  composite (final r) <> composite s ->
  unhandled (trace r) = [e] /\ errorLogs (trace r) = [].
Proof.
  cbv zeta.
  destruct (updateNetatmoStatus_run ans now (Some e) s) as (c & l & t0 & E & Hq & ->).
  destruct Hq as (_ & _ & Hl & Hu). cbv zeta.
  assert (Hu' : forall u, unhandled (t0 ++ u) = unhandled u).
  { intros u. clear - Hu. induction t0 as [|ev t0 IH]; [reflexivity|].
    destruct ev; simpl in *; try discriminate; auto. }
  assert (Hl' : forall u, errorLogs (t0 ++ u) = errorLogs u).
  { intros u. clear - Hl. induction t0 as [|ev t0 IH]; [reflexivity|].
    destruct ev as [[] ?| | | |]; simpl in *; try discriminate; auto. }
  destruct c as [status|e'|e'].
  - destruct (jseqb (netatmoStatus s) status) eqn:Eq.
    + unfold final. cbn [fst snd]. intros H. exfalso. apply H. reflexivity.
    + intros _. unfold trace. cbn [snd]. rewrite Hu', Hl'. split; reflexivity.
  - destruct (getNetatmoStationData_run ans s) as (c' & l' & t' & E' & _ & Hc).
    rewrite E in E'. inversion E'; subst. now destruct (Hc e').
  - unfold final. cbn [fst snd]. intros H. exfalso. apply H. reflexivity.
Qed.

(** The sibling paths do log and swallow: the display loop awaits
    [_tweet] inside [try]. *)
Lemma displayA_rejection_logged (power : answer PowerStatus) (info : answer ContentInfo)
    (now : N) (e : jserror) (s : App) :
  let r := VariantA.updateBraviaStatus power info now (Some e) s in
  composite (final r) <> composite s ->
  outcome r = Normal tt /\ unhandled (trace r) = [] /\ errorLogs (trace r) = [js "%j"].
Proof.
  cbv zeta.
  destruct (getBraviaStatus_run power info s) as (b & t0 & E & _ & _ & Hl & Hu & _).
  destruct (updateBraviaStatus_run power info now (Some e) s) as (b1 & t1 & E1 & ->).
  rewrite E in E1. inversion E1; subst b1 t1.
  assert (Hu' : forall u, unhandled (t0 ++ u) = unhandled u).
  { intros u. clear - Hu. induction t0 as [|ev t0 IH]; [reflexivity|].
    destruct ev; simpl in *; try discriminate; auto. }
  assert (Hl' : forall u, errorLogs (t0 ++ u) = errorLogs u).
  { intros u. clear - Hl. induction t0 as [|ev t0 IH]; [reflexivity|].
    destruct ev as [[] ?| | | |]; simpl in *; try discriminate; auto. }
  destruct (jseqb (braviaStatus s) (js "📺 " ++ b)).
  - unfold final. cbn [fst snd]. intros H. exfalso. apply H. reflexivity.
  - intros _. cbv zeta. unfold outcome, trace. cbn [fst snd]. rewrite Hu', Hl'.
    repeat split.
Qed.

(** A failed post changes no stored fragment: the state after a turn does
    not depend on the result of the post. *)
Lemma post_result_leaves_state (now : N) (postErr : option jserror) :
  (forall ans s,
      final (VariantA.updateNetatmoStatus ans now postErr s)
      = final (VariantA.updateNetatmoStatus ans now None s)) /\
  (forall power info s,
      final (VariantA.updateBraviaStatus power info now postErr s)
      = final (VariantA.updateBraviaStatus power info now None s)) /\
  (forall power info s,
      final (VariantB.startBraviaMonitor power info now postErr s)
      = final (VariantB.startBraviaMonitor power info now None s)).
Proof.
  split; [|split].
  - intros ans s.
    destruct (updateNetatmoStatus_run ans now postErr s) as (c & l & t0 & E & _ & ->).
    destruct (updateNetatmoStatus_run ans now None s) as (c' & l' & t0' & E' & _ & ->).
    rewrite E in E'. inversion E'; subst. cbv zeta.
    destruct c' as [status|e|e]; try reflexivity.
    destruct (jseqb (netatmoStatus s) status); reflexivity.
  - intros power info s.
    destruct (updateBraviaStatus_run power info now postErr s) as (b & t0 & E & ->).
    destruct (updateBraviaStatus_run power info now None s) as (b' & t0' & E' & ->).
    rewrite E in E'. inversion E'; subst.
    destruct (jseqb (braviaStatus s) (js "📺 " ++ b')); reflexivity.
  - intros power info s.
    destruct (startBraviaMonitor_run power info now postErr s) as (b & t0 & E & ->).
    destruct (startBraviaMonitor_run power info now None s) as (b' & t0' & E' & ->).
    rewrite E in E'. inversion E'; subst.
    destruct (jseqb (braviaStatus s) (js "📺 " ++ b')); reflexivity.
Qed.

(** ** The capture workflow *)

(** C2 fails on the handler of the callback variant: [status] is declared
    [const], so the [status += ...] of the upload-failure branch throws a
    TypeError inside the upload's callback and [_tweet] is never reached.
    The read event carries the expected filename, the photo was read, the
    upload failed: no publish call is made. *)
Theorem C2_const_status_no_publish :
  let r := VariantB.onCameraRead None IMG_FILENAME (Fulfilled [0xFF; 0xD8; 0xFF])
             (Rejected uploadFailure) 1700000000000 None newApp in
  publishes (trace r) = [] /\
  outcome r = Uncaught (mkError KTypeError (js "Assignment to constant variable.")) /\
  timers (trace r) = [(CamStart, CAM_INTERVAL)].
Proof. cbv zeta. repeat split. Qed.

Lemma onCameraReadA_run (camErr : option jserror)
    (file : answer (list N)) (upload : answer jsstring)
    (now : N) (postErr : option jserror) (s : App) :
  VariantA._onCameraRead camErr IMG_FILENAME file upload now postErr s =
  (Normal tt, s,
   match camErr with
   | Some e => Log LError (message e)
   | None => Log LInfo (js "cam saved: %s (%d)")
   end
   :: match file, upload with
      | Fulfilled d, Fulfilled _ => [MediaUpload d]
      | Fulfilled d, Rejected e => [MediaUpload d; Log LError (message e)]
      | Rejected e, _ => [Log LError (message e)]
      end
   ++ [StatusesUpdate (cameraPost file upload now s);
       match postErr with
       | Some e => Log LError (message e)
       | None => Log LInfo (js "POST: %j")
       end;
       SetTimeout CamStart CAM_INTERVAL]).
Proof.
  destruct camErr, file as [d|e1], upload as [h|e2], postErr; reflexivity.
Qed.

(** The async variant does what the claim says: with the expected filename
    there is exactly one publish call and exactly one re-arming of the
    timer, whatever failed; the handle is attached when the upload
    succeeded, the marker and the error message are appended when the read
    or the upload failed. *)
Lemma onCameraReadA_always_publishes (camErr : option jserror)
    (file : answer (list N)) (upload : answer jsstring)
    (now : N) (postErr : option jserror) (s : App) :
  let r := VariantA._onCameraRead camErr IMG_FILENAME file upload now postErr s in
  outcome r = Normal tt /\
  final r = s /\
  timers (trace r) = [(CamStart, CAM_INTERVAL)] /\
  publishes (trace r) = [cameraPost file upload now s].
Proof.
  cbv zeta. rewrite onCameraReadA_run.
  unfold outcome, final, trace. cbn [fst snd].
  destruct camErr, file as [d|e1], upload as [h|e2], postErr; repeat split.
Qed.

(** In the callback variant, a cycle whose upload succeeds publishes once
    with the handle and re-arms the timer once. *)
Lemma onCameraReadB_upload_ok (camErr : option jserror) (data : list N) (h : jsstring)
    (now : N) (postErr : option jserror) (s : App) :
  let r := VariantB.onCameraRead camErr IMG_FILENAME (Fulfilled data) (Fulfilled h)
             now postErr s in
  outcome r = Normal tt /\
  final r = s /\
  timers (trace r) = [(CamStart, CAM_INTERVAL)] /\
  publishes (trace r)
  = [mkTweet (stamped (composite s) now) (if truthy (Some h) then Some h else None)].
Proof.
  cbv zeta. unfold VariantB.onCameraRead, callback.
  unfold bind at 1.
  destruct camErr; unfold emit at 1; rewrite jseqb_refl; cbn [negb];
    unfold bind, gets, await, ret, emit; rewrite tweetB_run; cbv zeta;
    destruct postErr; repeat split.
Qed.

(** The same slip on every input: whenever the upload fails in the
    callback variant, nothing is published. *)
Lemma onCameraReadB_upload_failed (camErr : option jserror) (data : list N) (e : jserror)
    (now : N) (postErr : option jserror) (s : App) :
  let r := VariantB.onCameraRead camErr IMG_FILENAME (Fulfilled data) (Rejected e)
             now postErr s in
  publishes (trace r) = [] /\
  outcome r = Uncaught (mkError KTypeError (js "Assignment to constant variable.")).
Proof.
  cbv zeta. unfold VariantB.onCameraRead, callback.
  unfold bind at 1.
  destruct camErr; unfold emit at 1; rewrite jseqb_refl; cbn [negb];
    unfold bind, gets, await, ret, emit, throw; repeat split.
Qed.

(** ** Further properties: the station-data step and the weather turn *)

Lemma calcLux_summary (s : App) :
  VariantA._calcLux s = (Normal (luxSummary (luxes s)), setLuxes [] s, []).
Proof.
  destruct s as [[|x l] n b].
  - reflexivity.
  - rewrite calcLux_nonempty by discriminate. reflexivity.
Qed.

Lemma getNetatmoStationData_eq (ans : StationsData) (s : App) :
  VariantA._getNetatmoStationData ans s
  = (weatherOutcome ans (luxes s), setLuxes [] s, weatherLog ans).
Proof.
  unfold VariantA._getNetatmoStationData, callback, weatherOutcome, weatherLog.
  unfold bind at 1. rewrite calcLux_summary.
  destruct (err ans) as [e|].
  - unfold ret. cbn [app]. reflexivity.
  - destruct (devices ans) as [|dev rest]; cbn [nth_error].
    + reflexivity.
    + unfold bind.
      destruct (dashboard_data dev) as [data|] eqn:E.
      * rewrite (parseNetatmoDevice_present dev data _ E). reflexivity.
      * rewrite (parseNetatmoDevice_absent dev _ E). unfold ret. cbn [app].
        now rewrite app_nil_r.
Qed.

(** X1: the station-data step (both variants) always drains the sample
    buffer and resolves with the light summary followed by: the marker
    "Netatmo error! " when the station call failed (the devices are then
    not looked at); the snapshot of the first device when it has a reading
    (the other devices are ignored); nothing when the first device has no
    reading.  With no error and an empty device list the callback throws a
    TypeError, which nothing catches, and the promise never settles. *)
Theorem X1_station_step (ans : StationsData) (s : App) :
  let rA := VariantA._getNetatmoStationData ans s in
  let rB := VariantB._getNetatomoStationData ans s in
  rB = rA /\
  final rA = setLuxes [] s /\
  outcome rA =
    match err ans, devices ans with
    | Some _, _ => Normal (luxSummary (luxes s) ++ js "Netatmo error! ")
    | None, [] => Uncaught missingProperty
    | None, dev :: _ =>
      match dashboard_data dev with
      | Some data => Normal (luxSummary (luxes s) ++ snapshot (js "dB ") data)
      | None => Normal (luxSummary (luxes s))
      end
    end.
Proof.
  cbv zeta. rewrite getNetatomoStationData_agree, getNetatmoStationData_eq.
  repeat split.
Qed.

Lemma weatherOutcome_not_thrown (ans : StationsData) (l : list N) (e : jserror) :
  weatherOutcome ans l <> Throw e.
Proof.
  unfold weatherOutcome.
  destruct (err ans); [discriminate|].
  destruct (devices ans) as [|dev rest]; [discriminate|].
  destruct (dashboard_data dev); discriminate.
Qed.

Lemma weatherLog_quiet (ans : StationsData) : quiet (weatherLog ans).
Proof.
  unfold weatherLog, quiet.
  destruct (err ans); [repeat split|].
  destruct (devices ans) as [|dev rest]; [repeat split|].
  destruct (dashboard_data dev); repeat split.
Qed.

(** One turn of the weather loop, async variant, as an equation. *)
Lemma updateNetatmoStatus_eq (ans : StationsData) (now : N) (postErr : option jserror)
    (s : App) :
  VariantA.updateNetatmoStatus ans now postErr s =
  match weatherOutcome ans (luxes s) with
  | Normal status =>
    if jseqb (netatmoStatus s) status then (Normal tt, setLuxes [] s, weatherLog ans)
    else
      let s' := setNetatmoStatus status (setLuxes [] s) in
      let st := mkTweet (stamped (composite s') now) None in
      (Normal tt, s',
       weatherLog ans ++ match postErr with
                         | Some e => [StatusesUpdate st; UnhandledRejection e]
                         | None => [StatusesUpdate st; Log LInfo (js "POST: %j")]
                         end)
  | Throw e =>
    (Normal tt, setNetatmoStatus (message e) (setLuxes [] s),
     weatherLog ans ++ [Log LError (message e)])
  | Uncaught e => (Uncaught e, setLuxes [] s, weatherLog ans)
  end.
Proof.
  destruct (updateNetatmoStatus_run ans now postErr s) as (c & l & t0 & E & _ & ->).
  rewrite getNetatmoStationData_eq in E. unfold setLuxes in E.
  inversion E; subst. reflexivity.
Qed.

(** One turn of the weather loop, callback variant, as an equation. *)
Lemma startNetatmoMonitor_eq (ans : StationsData) (s : App) :
  VariantB.startNetatmoMonitor ans s =
  match weatherOutcome ans (luxes s) with
  | Normal status =>
    (Normal tt, setNetatmoStatus status (setLuxes [] s),
     weatherLog ans ++ [SetTimeout NetatmoMonitor VariantB.NETATOMO_INTERVAL])
  | Throw e => (Throw e, setLuxes [] s, weatherLog ans)
  | Uncaught e => (Uncaught e, setLuxes [] s, weatherLog ans)
  end.
Proof.
  destruct (startNetatmoMonitor_run ans s) as (c & l & t0 & E & _ & ->).
  rewrite getNetatmoStationData_eq in E. unfold setLuxes in E.
  inversion E; subst. reflexivity.
Qed.

Lemma errorLogs_app (t u : list event) : errorLogs (t ++ u) = errorLogs t ++ errorLogs u.
Proof.
  induction t as [|ev t IH]; simpl; [reflexivity|].
  destruct ev as [[] ?| | | |]; simpl; now rewrite IH.
Qed.

Lemma unhandled_app (t u : list event) : unhandled (t ++ u) = unhandled t ++ unhandled u.
Proof.
  induction t as [|ev t IH]; simpl; [reflexivity|].
  destruct ev; simpl; now rewrite IH.
Qed.

(** X2: after a weather turn (both variants) the sample buffer is empty
    and the display fragment is untouched, whatever the station answered;
    the stored weather fragment is the fragment the station-data step
    resolved with, the same in both variants, and it is left as it was when
    that step's callback threw.  In the async variant the [catch] of
    [updateNetatmoStatus] never runs: no error is logged and the weather
    fragment is never replaced by an error message. *)
Theorem X2_weather_turn_state (ans : StationsData) (now : N) (postErr : option jserror)
    (s : App) :
  let rA := VariantA.updateNetatmoStatus ans now postErr s in
  let rB := VariantB.startNetatmoMonitor ans s in
  final rA = final rB /\
  luxes (final rA) = [] /\
  braviaStatus (final rA) = braviaStatus s /\
  netatmoStatus (final rA)
  = match weatherOutcome ans (luxes s) with
    | Normal status => status
    | _ => netatmoStatus s
    end /\
  errorLogs (trace rA) = [].
Proof.
  cbv zeta. rewrite updateNetatmoStatus_eq, startNetatmoMonitor_eq.
  pose proof (weatherLog_quiet ans) as (_ & _ & Hl & _).
  destruct (weatherOutcome ans (luxes s)) as [status|e|e] eqn:E.
  - destruct (jseqb (netatmoStatus s) status) eqn:Eq.
    + apply jseqb_true in Eq. subst status.
      unfold final, trace. cbn [fst snd]. repeat split; auto.
    + cbv zeta. unfold final, trace. cbn [fst snd]. rewrite errorLogs_app, Hl.
      destruct postErr; repeat split.
  - destruct (weatherOutcome_not_thrown _ _ _ E).
  - unfold final, trace. cbn [fst snd]. repeat split; auto.
Qed.

(** X3: the weather turn of the callback variant re-arms its timer exactly
    once, with the 5 minute interval, unless the station answered without
    error and without any device: then [parseNetatmoDevice(devices[0])]
    throws in the callback, the turn ends in that uncaught TypeError, the
    promise never resolves and the timer is not re-armed.  In the same case
    the async variant ends in the same exception having published
    nothing. *)
Theorem X3_weather_rearm (ans : StationsData) (now : N) (postErr : option jserror)
    (s : App) :
  let rA := VariantA.updateNetatmoStatus ans now postErr s in
  let rB := VariantB.startNetatmoMonitor ans s in
  match err ans, devices ans with
  | None, [] =>
    outcome rB = Uncaught missingProperty /\ timers (trace rB) = [] /\
    outcome rA = Uncaught missingProperty /\ publishes (trace rA) = []
  | _, _ =>
    outcome rB = Normal tt /\
    timers (trace rB) = [(NetatmoMonitor, 5 * 60 * 1000)] /\
    outcome rA = Normal tt
  end.
Proof.
  cbv zeta. rewrite updateNetatmoStatus_eq, startNetatmoMonitor_eq.
  pose proof (weatherLog_quiet ans) as (Hp & Ht & _ & _).
  unfold weatherOutcome in *.
  destruct (err ans) as [e|].
  - destruct (jseqb (netatmoStatus s) _); unfold outcome, trace; cbn [fst snd];
      rewrite timers_app, Ht; repeat split.
  - destruct (devices ans) as [|dev rest].
    + unfold outcome, trace. cbn [fst snd]. repeat split; assumption.
    + destruct (dashboard_data dev);
        destruct (jseqb (netatmoStatus s) _); unfold outcome, trace; cbn [fst snd];
        rewrite timers_app, Ht; repeat split.
Qed.

(** ** Further properties: the display turn *)

Lemma getBraviaStatus_eq (power : answer PowerStatus) (info : answer ContentInfo) (s : App) :
  VariantA._getBraviaStatus power info s
  = (Normal (braviaBody power info), s, braviaLog power info).
Proof.
  unfold VariantA._getBraviaStatus, braviaBody, braviaLog,
    try_catch, bind, await, ret, throw, emit.
  destruct power as [p|e]; [|reflexivity].
  destruct (jseqb (power_status p) (js "active")); [|reflexivity].
  destruct info as [i|e]; [|reflexivity].
  destruct (programTitle i) as [[|c t]|]; reflexivity.
Qed.

Lemma braviaLog_quiet (power : answer PowerStatus) (info : answer ContentInfo) :
  quiet (braviaLog power info).
Proof.
  unfold braviaLog, quiet.
  destruct power as [p|e]; [|repeat split].
  destruct (jseqb (power_status p) (js "active")); [|repeat split].
  destruct info; repeat split.
Qed.

Lemma updateBraviaStatus_eq (power : answer PowerStatus) (info : answer ContentInfo)
    (now : N) (postErr : option jserror) (s : App) :
  VariantA.updateBraviaStatus power info now postErr s =
  let fragment := js "📺 " ++ braviaBody power info in
  if jseqb (braviaStatus s) fragment then (Normal tt, s, braviaLog power info)
  else
    let s' := setBraviaStatus fragment s in
    let st := mkTweet (stamped (composite s') now) None in
    (Normal tt, s',
     braviaLog power info ++ match postErr with
                             | Some e => [StatusesUpdate st; Log LError (js "%j")]
                             | None => [StatusesUpdate st; Log LInfo (js "POST: %j")]
                             end).
Proof.
  destruct (updateBraviaStatus_run power info now postErr s) as (b & t0 & E & ->).
  rewrite getBraviaStatus_eq in E. inversion E; subst. reflexivity.
Qed.

Lemma startBraviaMonitor_eq (power : answer PowerStatus) (info : answer ContentInfo)
    (now : N) (postErr : option jserror) (s : App) :
  VariantB.startBraviaMonitor power info now postErr s =
  let fragment := js "📺 " ++ braviaBody power info in
  if jseqb (braviaStatus s) fragment
  then (Normal tt, s, braviaLog power info ++ [SetTimeout BraviaMonitor BRAVIA_INTERVAL])
  else
    let s' := setBraviaStatus fragment s in
    let st := mkTweet (stamped (composite s') now) None in
    (Normal tt, s',
     braviaLog power info ++ match postErr with
                             | Some e => [StatusesUpdate st; Log LError (js "Error: %j")]
                             | None => [StatusesUpdate st; Log LInfo (js "POST: %j")]
                             end ++ [SetTimeout BraviaMonitor BRAVIA_INTERVAL]).
Proof.
  destruct (startBraviaMonitor_run power info now postErr s) as (b & t0 & E & ->).
  rewrite getBraviaStatus_eq in E. inversion E; subst. reflexivity.
Qed.

(** X4: a display turn of the callback variant always ends normally and
    re-arms its timer exactly once, with the 60 second interval, whatever
    failed (the power request, the content request, the post); both
    variants leave the sample buffer and the weather fragment as they
    were. *)
Theorem X4_display_rearm (power : answer PowerStatus) (info : answer ContentInfo)
    (now : N) (postErr : option jserror) (s : App) :
  let rA := VariantA.updateBraviaStatus power info now postErr s in
  let rB := VariantB.startBraviaMonitor power info now postErr s in
  outcome rB = Normal tt /\
  timers (trace rB) = [(BraviaMonitor, 60 * 1000)] /\
  final rA = final rB /\
  luxes (final rA) = luxes s /\
  netatmoStatus (final rA) = netatmoStatus s.
Proof.
  cbv zeta. rewrite updateBraviaStatus_eq, startBraviaMonitor_eq. cbv zeta.
  pose proof (braviaLog_quiet power info) as (_ & Ht & _ & _).
  destruct (jseqb (braviaStatus s) (js "📺 " ++ braviaBody power info));
    unfold outcome, final, trace; cbn [fst snd];
    rewrite !timers_app, Ht; destruct postErr; repeat split.
Qed.

(** X5: the display turn is idempotent (both variants): a second turn that
    gets the same answers from the TV, at any later time and whatever the
    post does, publishes nothing and leaves the state of the first turn. *)
Theorem X5_display_turn_idempotent (power : answer PowerStatus) (info : answer ContentInfo)
    (now now' : N) (postErr postErr' : option jserror) (s : App) :
  let rA := VariantA.updateBraviaStatus power info now postErr s in
  let rA' := VariantA.updateBraviaStatus power info now' postErr' (final rA) in
  let rB := VariantB.startBraviaMonitor power info now postErr s in
  let rB' := VariantB.startBraviaMonitor power info now' postErr' (final rB) in
  publishes (trace rA') = [] /\ final rA' = final rA /\
  publishes (trace rB') = [] /\ final rB' = final rB.
Proof.
  cbv zeta.
  pose proof (braviaLog_quiet power info) as (Hp & _ & _ & _).
  assert (HA : braviaStatus (final (VariantA.updateBraviaStatus power info now postErr s))
               = js "📺 " ++ braviaBody power info).
  { rewrite updateBraviaStatus_eq. cbv zeta.
    destruct (jseqb (braviaStatus s) _) eqn:Eq; [apply jseqb_true in Eq; exact Eq|reflexivity]. }
  assert (HB : braviaStatus (final (VariantB.startBraviaMonitor power info now postErr s))
               = js "📺 " ++ braviaBody power info).
  { rewrite startBraviaMonitor_eq. cbv zeta.
    destruct (jseqb (braviaStatus s) _) eqn:Eq; [apply jseqb_true in Eq; exact Eq|reflexivity]. }
  rewrite (updateBraviaStatus_eq power info now' postErr'),
          (startBraviaMonitor_eq power info now' postErr'). cbv zeta.
  rewrite HA, HB, jseqb_refl. unfold final at 1 3, trace. cbn [fst snd].
  rewrite publishes_app, Hp. repeat split.
Qed.

(** X6: a failed post in the display turn is logged once with [log.error]
    and swallowed (both variants): the turn logs an error exactly when it
    published and the post failed, and no rejection is left unhandled. *)
Theorem X6_display_post_failure_logged (power : answer PowerStatus)
    (info : answer ContentInfo) (now : N) (postErr : option jserror) (s : App) :
  let rA := VariantA.updateBraviaStatus power info now postErr s in
  let rB := VariantB.startBraviaMonitor power info now postErr s in
  List.length (errorLogs (trace rA))
  = match postErr with
    | Some _ => List.length (publishes (trace rA))
    | None => 0%nat
    end /\
  List.length (errorLogs (trace rB))
  = match postErr with
    | Some _ => List.length (publishes (trace rB))
    | None => 0%nat
    end /\
  unhandled (trace rA) = [] /\ unhandled (trace rB) = [] /\
  outcome rA = Normal tt /\ outcome rB = Normal tt.
Proof.
  cbv zeta. rewrite updateBraviaStatus_eq, startBraviaMonitor_eq. cbv zeta.
  pose proof (braviaLog_quiet power info) as (Hp & _ & Hl & Hu).
  destruct (jseqb (braviaStatus s) (js "📺 " ++ braviaBody power info));
    unfold outcome, trace; cbn [fst snd];
    rewrite ?errorLogs_app, ?unhandled_app, ?publishes_app, ?Hp, ?Hl, ?Hu;
    destruct postErr; repeat split.
Qed.

(** X7: with no sample in the buffer, a weather turn of the async variant
    followed by a second one that gets the same station answer (and no
    beacon event in between) publishes nothing the second time and keeps
    the stored weather fragment, at any later time and whatever the post
    does. *)
Theorem X7_weather_turn_repeated (ans : StationsData) (now now' : N)
    (postErr postErr' : option jserror) (s : App) :
  luxes s = [] ->
  let r := VariantA.updateNetatmoStatus ans now postErr s in
  let r' := VariantA.updateNetatmoStatus ans now' postErr' (final r) in
  publishes (trace r') = [] /\
  netatmoStatus (final r') = netatmoStatus (final r) /\
  braviaStatus (final r') = braviaStatus s.
Proof.
  intros Hl. cbv zeta.
  pose proof (weatherLog_quiet ans) as (Hp & _ & _ & _).
  assert (H1 : final (VariantA.updateNetatmoStatus ans now postErr s)
               = match weatherOutcome ans [] with
                 | Normal status => setNetatmoStatus status (setLuxes [] s)
                 | _ => setLuxes [] s
                 end).
  { rewrite updateNetatmoStatus_eq, Hl.
    destruct (weatherOutcome ans []) as [status|e|e] eqn:E.
    - destruct (jseqb (netatmoStatus s) status) eqn:Eq; [|reflexivity].
      apply jseqb_true in Eq. subst status. reflexivity.
    - destruct (weatherOutcome_not_thrown _ _ _ E).
    - reflexivity. }
  rewrite (updateNetatmoStatus_eq ans now' postErr'), H1.
  destruct (weatherOutcome ans []) as [status|e|e] eqn:E.
  - cbn [luxes setNetatmoStatus setLuxes netatmoStatus]. rewrite E, jseqb_refl.
    unfold final, trace. cbn [fst snd]. repeat split. exact Hp.
  - destruct (weatherOutcome_not_thrown _ _ _ E).
  - cbn [luxes setLuxes]. rewrite E.
    unfold final, trace. cbn [fst snd]. repeat split. exact Hp.
Qed.

Lemma X7_witness :
  luxes newApp = [] /\
  let r := VariantA.updateNetatmoStatus exampleStations 1000 None newApp in
  let r' := VariantA.updateNetatmoStatus exampleStations 2000 (Some postFailure) (final r) in
  publishes (trace r') = [] /\
  netatmoStatus (final r') = netatmoStatus (final r) /\
  braviaStatus (final r') = braviaStatus newApp.
Proof.
  split; [reflexivity|].
  apply (X7_weather_turn_repeated exampleStations 1000 2000 None (Some postFailure) newApp).
  reflexivity.
Defined.

(** ** Further properties: the sampler *)

Lemma sum_bounds (l : list N) (lo hi : N) :
  Forall (fun x => lo <= x <= hi) l ->
  N.of_nat (List.length l) * lo <= sum l <= N.of_nat (List.length l) * hi.
Proof.
  induction 1 as [|x l Hx _ IH].
  - simpl. lia.
  - cbn [sum fold_right List.length]. fold (sum l).
    rewrite Nat2N.inj_succ. lia.
Qed.

Lemma Math_round_div_bounds (total n lo hi : N) :
  0 < n -> n * lo <= total <= n * hi ->
  lo <= Math_round_div total n <= hi.
Proof.
  intros Hn [Hlo Hhi]. unfold Math_round_div. split.
  - apply N.div_le_lower_bound; lia.
  - apply N.lt_succ_r. apply N.Div0.div_lt_upper_bound; lia.
Qed.

(** X8: the mean [_calcLux] prints lies between the smallest and the
    largest sample: when every sample of a non-empty buffer is within
    [lo, hi], so is the printed value (both variants).  For samples read
    from two bytes the printed mean is at most 65535. *)
Theorem X8_calcLux_mean_within_samples (s : App) (lo hi : N) :
  luxes s <> [] ->
  Forall (fun x => lo <= x <= hi) (luxes s) ->
  exists val emoji,
    lo <= val <= hi /\
    bucket_of val emoji /\
    outcome (VariantA._calcLux s) = Normal (emoji ++ js " " ++ decimal val ++ js " ") /\
    outcome (VariantB._calcLux s) = Normal (emoji ++ js " " ++ decimal val ++ js " ").
Proof.
  intros Hne Hall.
  exists (Math_round_div (sum (luxes s)) (N.of_nat (List.length (luxes s)))).
  exists (chain (Math_round_div (sum (luxes s)) (N.of_nat (List.length (luxes s))))).
  split.
  - apply Math_round_div_bounds; [apply length_pos, Hne | apply sum_bounds, Hall].
  - split; [apply chain_bucket|].
    change (VariantB._calcLux s) with (VariantA._calcLux s).
    rewrite (calcLux_nonempty s Hne). split; reflexivity.
Qed.

Lemma X8_witness :
  luxes (mkApp [120; 65535; 300] [] []) <> [] /\
  Forall (fun x => 0 <= x <= 65535) [120; 65535; 300] /\
  exists val emoji,
    0 <= val <= 65535 /\
    bucket_of val emoji /\
    outcome (VariantA._calcLux (mkApp [120; 65535; 300] [] []))
      = Normal (emoji ++ js " " ++ decimal val ++ js " ") /\
    outcome (VariantB._calcLux (mkApp [120; 65535; 300] [] []))
      = Normal (emoji ++ js " " ++ decimal val ++ js " ").
Proof.
  assert (Hne : luxes (mkApp [120; 65535; 300] [] []) <> []) by discriminate.
  assert (Hall : Forall (fun x => 0 <= x <= 65535) [120; 65535; 300])
    by (repeat constructor; lia).
  split; [exact Hne|]. split; [exact Hall|].
  exact (X8_calcLux_mean_within_samples (mkApp [120; 65535; 300] [] []) 0 65535 Hne Hall).
Defined.

Lemma sum_permutation (l l' : list N) : Permutation l l' -> sum l = sum l'.
Proof.
  induction 1 as [| x l l' _ IH | x y l | l l' l'' _ IH1 _ IH2].
  - reflexivity.
  - cbn [sum fold_right]. fold (sum l) (sum l'). lia.
  - cbn [sum fold_right]. fold (sum l). lia.
  - congruence.
Qed.

(** X9: the fragment [_calcLux] returns does not depend on the order in
    which the samples were recorded: two buffers that hold the same
    samples, in any order, give the same fragment (both variants). *)
Theorem X9_calcLux_order_independent (s s' : App) :
  Permutation (luxes s) (luxes s') ->
  outcome (VariantA._calcLux s) = outcome (VariantA._calcLux s') /\
  outcome (VariantB._calcLux s) = outcome (VariantB._calcLux s').
Proof.
  intros P.
  change (VariantB._calcLux s) with (VariantA._calcLux s).
  change (VariantB._calcLux s') with (VariantA._calcLux s').
  rewrite !calcLux_summary. unfold outcome. cbn [fst].
  assert (H : luxSummary (luxes s) = luxSummary (luxes s')).
  { unfold luxSummary.
    pose proof (Permutation_length P) as Hlen.
    pose proof (sum_permutation _ _ P) as Hsum.
    destruct (luxes s) as [|x l], (luxes s') as [|y l']; try discriminate; [reflexivity|].
    rewrite Hsum, Hlen. reflexivity. }
  rewrite H. split; reflexivity.
Qed.

Lemma X9_witness :
  Permutation (luxes (mkApp [10; 2000; 308] [] [])) (luxes (mkApp [308; 10; 2000] [] [])) /\
  outcome (VariantA._calcLux (mkApp [10; 2000; 308] [] []))
  = outcome (VariantA._calcLux (mkApp [308; 10; 2000] [] [])) /\
  outcome (VariantB._calcLux (mkApp [10; 2000; 308] [] []))
  = outcome (VariantB._calcLux (mkApp [308; 10; 2000] [] [])).
Proof.
  assert (P : Permutation (luxes (mkApp [10; 2000; 308] [] []))
                          (luxes (mkApp [308; 10; 2000] [] []))).
  { cbn [luxes].
    apply (perm_trans (l' := [10; 308; 2000])).
    - apply perm_skip, perm_swap.
    - apply perm_swap. }
  split; [exact P|].
  exact (X9_calcLux_order_independent (mkApp [10; 2000; 308] [] [])
                                      (mkApp [308; 10; 2000] [] []) P).
Defined.

(** ** Further properties: the replacement of invalid text *)

Lemma replaceInvalid_cons1 (c : N) :
  replaceInvalid [c] = if inRange 0xE000 0xF8FF c then [] else [c].
Proof. reflexivity. Qed.

(** A statement about a string and about the string with one more unit in
    front: the recursion of [replaceInvalid] consumes one or two units. *)
Lemma two_step_induction (P : jsstring -> Prop) :
  P [] ->
  (forall c, P [c]) ->
  (forall c d s, P s -> P (d :: s) -> P (c :: d :: s)) ->
  forall s, P s.
Proof.
  intros H0 H1 H2 s.
  enough (H : P s /\ forall c, P (c :: s)) by apply H.
  induction s as [|d s [IHs IHd]].
  - split; [exact H0 | exact H1].
  - split; [apply IHd|]. intros c. apply H2; [exact IHs | apply IHd].
Qed.

(** X10: [replace(INVALID_TEXT_REGEXP, '')] only removes: its result is
    never longer than the text, and no code unit of the private-use range
    U+E000..U+F8FF is left in it, whatever the text (well-formed UTF-16 or
    not). *)
Theorem X10_replaceInvalid_removes (s : jsstring) :
  (List.length (replaceInvalid s) <= List.length s)%nat /\
  Forall (fun c => inRange 0xE000 0xF8FF c = false) (replaceInvalid s).
Proof.
  induction s as [| c | c d s [IHl IHf] [IHl' IHf']] using two_step_induction.
  - split; [reflexivity | constructor].
  - rewrite replaceInvalid_cons1.
    destruct (inRange 0xE000 0xF8FF c) eqn:E; split; simpl; try lia; repeat constructor.
    exact E.
  - rewrite replaceInvalid_cons2.
    destruct (inRange 0xE000 0xF8FF c) eqn:E1.
    + split; [simpl in *; lia | exact IHf'].
    + destruct ((c =? 0xD83C) && inRange 0xDF00 0xDFFF d);
        [split; [simpl in *; lia | exact IHf]|].
      destruct ((c =? 0xD83D) && inRange 0xDC00 0xDDFF d);
        [split; [simpl in *; lia | exact IHf]|].
      split; [simpl in *; lia | constructor; assumption].
Qed.

(** X11: a text that holds no private-use unit and neither of the two high
    surrogates U+D83C and U+D83D is returned as it is. *)
Theorem X11_replaceInvalid_plain_text (s : jsstring) :
  Forall (fun c => inRange 0xE000 0xF8FF c = false /\ c <> 0xD83C /\ c <> 0xD83D) s ->
  replaceInvalid s = s.
Proof.
  induction s as [| c | c d s IH IH'] using two_step_induction; intros H.
  - reflexivity.
  - rewrite replaceInvalid_cons1. apply Forall_inv in H. destruct H as (-> & _). reflexivity.
  - rewrite replaceInvalid_cons2.
    pose proof (Forall_inv H) as (E1 & E2 & E3). apply Forall_inv_tail in H.
    rewrite E1.
    apply N.eqb_neq in E2, E3. rewrite E2, E3. cbn [andb].
    now rewrite (IH' H).
Qed.

Lemma X11_witness :
  Forall (fun c => inRange 0xE000 0xF8FF c = false /\ c <> 0xD83C /\ c <> 0xD83D)
         (js "ニュース7 ☀ news") /\
  replaceInvalid (js "ニュース7 ☀ news") = js "ニュース7 ☀ news".
Proof.
  assert (H : Forall (fun c => inRange 0xE000 0xF8FF c = false /\ c <> 0xD83C /\ c <> 0xD83D)
                     (js "ニュース7 ☀ news")).
  { vm_compute. repeat constructor; discriminate. }
  split; [exact H|].
  exact (X11_replaceInvalid_plain_text (js "ニュース7 ☀ news") H).
Defined.

(** X12: the replacement is one pass from left to right and is not
    repeated on its result: when a private-use unit stands between the two
    halves of a pictograph pair, removing it brings the halves together and
    the pictograph stays in the result; a second replacement would remove
    it. *)
Theorem X12_replaceInvalid_single_pass (p lo : N) (s : jsstring) :
  inRange 0xE000 0xF8FF p = true ->
  inRange 0xDF00 0xDFFF lo = true ->
  replaceInvalid (0xD83C :: p :: lo :: s) = 0xD83C :: lo :: replaceInvalid s /\
  replaceInvalid (0xD83C :: lo :: replaceInvalid s) = replaceInvalid (replaceInvalid s).
Proof.
  intros Hp Hlo. split.
  - rewrite replaceInvalid_cons2.
    change (inRange 0xE000 0xF8FF 0xD83C) with false. cbv iota.
    assert (E1 : inRange 0xDF00 0xDFFF p = false).
    { destruct (inRange 0xDF00 0xDFFF p) eqn:E; [ranges; lia | reflexivity]. }
    rewrite E1. cbn [andb N.eqb Pos.eqb].
    rewrite replaceInvalid_cons2, Hp.
    f_equal. apply (replaceInvalid_low lo s).
    unfold isLowSurrogate. apply inRange_spec. ranges. lia.
  - destruct (replaceInvalid s) as [|d t] eqn:E.
    + cbn [replaceInvalid]. change (inRange 0xE000 0xF8FF 0xD83C) with false.
      cbn [N.eqb Pos.eqb andb]. rewrite Hlo. reflexivity.
    + rewrite replaceInvalid_cons2.
      change (inRange 0xE000 0xF8FF 0xD83C) with false. cbv iota.
      rewrite Hlo. reflexivity.
Qed.

Lemma X12_witness :
  inRange 0xE000 0xF8FF 0xE000 = true /\
  inRange 0xDF00 0xDFFF 0xDF24 = true /\
  replaceInvalid (0xD83C :: 0xE000 :: 0xDF24 :: js " x")
  = 0xD83C :: 0xDF24 :: replaceInvalid (js " x") /\
  replaceInvalid (0xD83C :: 0xDF24 :: replaceInvalid (js " x"))
  = replaceInvalid (replaceInvalid (js " x")).
Proof.
  split; [reflexivity|]. split; [reflexivity|].
  apply (X12_replaceInvalid_single_pass 0xE000 0xDF24 (js " x")); reflexivity.
Defined.

(** ** Further properties: the capture workflow *)

Lemma onCameraReadA_eq (camErr : option jserror) (filename : jsstring)
    (file : answer (list N)) (upload : answer jsstring)
    (now : N) (postErr : option jserror) (s : App) :
  VariantA._onCameraRead camErr filename file upload now postErr s =
  if jseqb filename IMG_FILENAME then
    (Normal tt, s,
     camLog camErr
     :: match file, upload with
        | Fulfilled d, Fulfilled _ => [MediaUpload d]
        | Fulfilled d, Rejected e => [MediaUpload d; Log LError (message e)]
        | Rejected e, _ => [Log LError (message e)]
        end
     ++ [StatusesUpdate (cameraPost file upload now s);
         match postErr with
         | Some e => Log LError (message e)
         | None => Log LInfo (js "POST: %j")
         end;
         SetTimeout CamStart CAM_INTERVAL])
  else (Normal tt, s, [camLog camErr]).
Proof.
  destruct (jseqb filename IMG_FILENAME) eqn:E.
  - apply jseqb_true in E. subst filename. rewrite onCameraReadA_run.
    destruct camErr; reflexivity.
  - unfold VariantA._onCameraRead. unfold bind at 1.
    destruct camErr; unfold emit at 1; rewrite E; reflexivity.
Qed.

Lemma onCameraReadB_eq (camErr : option jserror) (filename : jsstring)
    (file : answer (list N)) (upload : answer jsstring)
    (now : N) (postErr : option jserror) (s : App) :
  VariantB.onCameraRead camErr filename file upload now postErr s =
  if jseqb filename IMG_FILENAME then
    match file, upload with
    | Rejected e, _ => (Uncaught e, s, [camLog camErr])
    | Fulfilled d, Rejected _ =>
      (Uncaught constAssignment, s,
       [camLog camErr; MediaUpload d; SetTimeout CamStart CAM_INTERVAL])
    | Fulfilled d, Fulfilled h =>
      (Normal tt, s,
       [camLog camErr; MediaUpload d; SetTimeout CamStart CAM_INTERVAL;
        StatusesUpdate (mkTweet (stamped (composite s) now)
                                (if truthy (Some h) then Some h else None));
        match postErr with
        | Some _ => Log LError (js "Error: %j")
        | None => Log LInfo (js "POST: %j")
        end])
    end
  else (Normal tt, s, [camLog camErr]).
Proof.
  unfold VariantB.onCameraRead, callback. unfold bind at 1.
  destruct camErr; unfold emit at 1; destruct (jseqb filename IMG_FILENAME);
    cbn [negb]; try reflexivity;
    destruct file as [d|e]; try reflexivity;
    destruct upload as [h|e]; try reflexivity;
    unfold bind, gets, await, ret, emit; rewrite tweetB_run; cbv zeta;
    destruct postErr; reflexivity.
Qed.

(** X13: in the async variant a capture cycle whose read event carries the
    expected filename always ends normally with exactly one post and
    exactly one re-arming of the 15 minute timer, and changes no state.
    The posted text is the composite stored when the event arrived; when
    reading the photo or uploading it failed, "📸" and the error message
    are appended and no media handle is attached; a failed post is logged
    and swallowed, so the dropped promise of [_onCameraRead] never leaves a
    rejection unhandled. *)
Theorem X13_capture_async_always_posts (camErr : option jserror)
    (file : answer (list N)) (upload : answer jsstring)
    (now : N) (postErr : option jserror) (s : App) :
  let r := reactA (CameraRead camErr IMG_FILENAME file upload now postErr) s in
  outcome r = Normal tt /\
  final r = s /\
  timers (trace r) = [(CamStart, 15 * 60 * 1000)] /\
  unhandled (trace r) = [] /\
  publishes (trace r)
  = [match file, upload with
     | Fulfilled _, Fulfilled h =>
       mkTweet (stamped (composite s) now) (if truthy (Some h) then Some h else None)
     | Fulfilled _, Rejected e =>
       mkTweet (stamped (composite s ++ js "📸" ++ message e) now) None
     | Rejected e, _ =>
       mkTweet (stamped (composite s ++ js "📸" ++ message e) now) None
     end].
Proof.
  cbv zeta. unfold reactA, detached. rewrite onCameraReadA_eq, jseqb_refl.
  unfold outcome, final, trace. cbn [fst snd].
  destruct camErr, file as [d|e1], upload as [h|e2], postErr; repeat split.
Qed.

(** X14: a read event of the camera that carries any other filename is
    only logged (both variants): nothing is read, uploaded or posted, the
    state is unchanged, and the cooldown timer is not re-armed by it. *)
Theorem X14_capture_other_filename (camErr : option jserror) (filename : jsstring)
    (file : answer (list N)) (upload : answer jsstring)
    (now : N) (postErr : option jserror) (s : App) :
  filename <> IMG_FILENAME ->
  reactA (CameraRead camErr filename file upload now postErr) s
  = (Normal tt, s, [camLog camErr]) /\
  reactB (CameraRead camErr filename file upload now postErr) s
  = (Normal tt, s, [camLog camErr]).
Proof.
  intros H. apply jseqb_false in H.
  unfold reactA, reactB, detached. rewrite onCameraReadA_eq, onCameraReadB_eq, H.
  split; reflexivity.
Qed.

Lemma X14_witness :
  js "raspicam.jpg~" <> IMG_FILENAME /\
  reactA (CameraRead None (js "raspicam.jpg~") (Fulfilled [0xFF; 0xD8]) (Fulfilled (js "42"))
                     1000 None) newApp
  = (Normal tt, newApp, [camLog None]) /\
  reactB (CameraRead None (js "raspicam.jpg~") (Fulfilled [0xFF; 0xD8]) (Fulfilled (js "42"))
                     1000 None) newApp
  = (Normal tt, newApp, [camLog None]).
Proof.
  assert (H : js "raspicam.jpg~" <> IMG_FILENAME) by (vm_compute; discriminate).
  split; [exact H|].
  exact (X14_capture_other_filename None (js "raspicam.jpg~") (Fulfilled [0xFF; 0xD8])
           (Fulfilled (js "42")) 1000 None newApp H).
Defined.

(** X15: in the callback variant a capture cycle with the expected
    filename posts once, with the media handle and the composite stored
    when the event arrived, and re-arms the timer once, when the photo is
    read and uploaded.  When [fs.readFileSync] throws, the exception leaves
    the handler before the upload and before [setTimeout]: nothing is
    posted and the timer is not re-armed.  When the upload fails, the timer
    is armed but the cycle ends in the TypeError of the assignment to the
    constant and nothing is posted.  No case changes the state. *)
Theorem X15_capture_callback_cases (camErr : option jserror)
    (file : answer (list N)) (upload : answer jsstring)
    (now : N) (postErr : option jserror) (s : App) :
  let r := reactB (CameraRead camErr IMG_FILENAME file upload now postErr) s in
  final r = s /\
  match file, upload with
  | Rejected e, _ =>
    outcome r = Uncaught e /\ publishes (trace r) = [] /\ timers (trace r) = []
  | Fulfilled _, Rejected _ =>
    outcome r = Uncaught constAssignment /\ publishes (trace r) = [] /\
    timers (trace r) = [(CamStart, 15 * 60 * 1000)]
  | Fulfilled _, Fulfilled h =>
    outcome r = Normal tt /\
    publishes (trace r)
    = [mkTweet (stamped (composite s) now) (if truthy (Some h) then Some h else None)] /\
    timers (trace r) = [(CamStart, 15 * 60 * 1000)]
  end.
Proof.
  cbv zeta. unfold reactB. rewrite onCameraReadB_eq, jseqb_refl.
  destruct camErr, file as [d|e1], upload as [h|e2], postErr; repeat split.
Qed.

(** ** Further properties: sequences of reactions *)

Lemma run_cons (react : stimulus -> Js unit) (i : stimulus) (l : list stimulus) (s : App) :
  run react (i :: l) s =
  match react i s with
  | (Normal _, s1, t1) =>
    (outcome (run react l s1), final (run react l s1), t1 ++ trace (run react l s1))
  | (Throw e, s1, t1) => (Throw e, s1, t1)
  | (Uncaught e, s1, t1) => (Uncaught e, s1, t1)
  end.
Proof.
  cbn [run]. unfold bind.
  destruct (react i s) as [[[u|e|e] s1] t1]; try reflexivity.
  destruct (run react l s1) as [[c s2] t2]. reflexivity.
Qed.

(** A field that every allowed reaction leaves alone is left alone by a run
    of allowed reactions. *)
Lemma run_preserves {A : Type} (react : stimulus -> Js unit) (f : App -> A)
    (allowed : stimulus -> bool) :
  (forall i s, allowed i = true -> f (final (react i s)) = f s) ->
  forall l s, forallb allowed l = true -> f (final (run react l s)) = f s.
Proof.
  intros Hstep l. induction l as [|i l IH]; intros s Hall.
  - reflexivity.
  - cbn [forallb] in Hall. apply andb_true_iff in Hall. destruct Hall as [Hi Hl].
    rewrite run_cons. specialize (Hstep i s Hi).
    destruct (react i s) as [[[u|e|e] s1] t1]; unfold final in *; cbn [fst snd] in *;
      try exact Hstep.
    rewrite <- Hstep. apply (IH s1 Hl).
Qed.

(** A count over the trace that is additive and bounded for every reaction
    is bounded for a run. *)
Lemma run_count (react : stimulus -> Js unit) (m : list event -> nat)
    (w : stimulus -> nat) :
  m [] = 0%nat ->
  (forall t u, m (t ++ u) = (m t + m u)%nat) ->
  (forall i s, (m (trace (react i s)) <= w i)%nat) ->
  forall l s, (m (trace (run react l s)) <= list_sum (map w l))%nat.
Proof.
  intros H0 Happ Hstep l. induction l as [|i l IH]; intros s.
  - cbn. rewrite H0. lia.
  - rewrite run_cons. cbn [map].
    change (list_sum (w i :: map w l)) with (w i + list_sum (map w l))%nat.
    specialize (Hstep i s).
    destruct (react i s) as [[[u|e|e] s1] t1]; unfold trace in *; cbn [fst snd] in *;
      try lia.
    rewrite Happ. specialize (IH s1). unfold trace in IH. lia.
Qed.

Lemma onDiscoverA_sample (adv : Advertisement) (s : App) :
  VariantA.onDiscover adv s =
  let entry := Log LVerbose (js "peripheral.advertisement:%j") in
  if shortData adv then (Throw outOfRange, s, [entry])
  else match sampleOf adv with
       | Some v => (Normal tt, setLuxes (luxes s ++ [v]) s,
                    [entry; Log LVerbose (js "MEASURE: %s %d")])
       | None => (Normal tt, s, [entry])
       end.
Proof.
  rewrite onDiscoverA_cases. unfold shortData, sampleOf. cbv zeta.
  destruct (localName adv) as [name|]; [|reflexivity].
  destruct (manufacturerData adv) as [buf|]; [|reflexivity].
  destruct (startsWith (js "BLECAST_BL") name); [|reflexivity].
  cbn [andb].
  destruct (Nat.ltb (List.length buf) 6) eqn:E.
  - apply Nat.ltb_lt in E. rewrite (nth_error_beyond buf 5) by lia. reflexivity.
  - apply Nat.ltb_ge in E.
    rewrite (nth_error_nth_default buf 5), (nth_error_nth_default buf 4) by lia.
    reflexivity.
Qed.

Lemma onDiscoverB_sample (adv : Advertisement) (s : App) :
  VariantB.onDiscover adv s =
  let entry := Log LVerbose (js "peripheral.advertisement:%j") in
  if shortData adv then (Throw outOfRange, s, [entry])
  else match sampleOf adv with
       | Some v => (Normal tt, setLuxes (luxes s ++ [v]) s,
                    [entry; Log LInfo (js "MEASURE: %s %d")])
       | None => (Normal tt, s, [entry])
       end.
Proof.
  rewrite onDiscoverB_cases. unfold shortData, sampleOf. cbv zeta.
  destruct (localName adv) as [name|]; [|reflexivity].
  destruct (manufacturerData adv) as [buf|]; [|reflexivity].
  destruct (startsWith (js "BLECAST_BL") name); [|reflexivity].
  cbn [andb].
  destruct (Nat.ltb (List.length buf) 6) eqn:E.
  - apply Nat.ltb_lt in E. rewrite (nth_error_beyond buf 5) by lia. reflexivity.
  - apply Nat.ltb_ge in E.
    rewrite (nth_error_nth_default buf 5), (nth_error_nth_default buf 4) by lia.
    reflexivity.
Qed.

(** What one reaction of the async variant does to the state and how much
    it publishes. *)
Lemma reactA_step (i : stimulus) (s : App) :
  let r := reactA i s in
  (List.length (publishes (trace r)) <= if isDiscover i then 0 else 1)%nat /\
  (isNetatmoTick i = false -> netatmoStatus (final r) = netatmoStatus s) /\
  (isBraviaTick i = false -> braviaStatus (final r) = braviaStatus s) /\
  (isDiscover i = false -> isNetatmoTick i = false -> luxes (final r) = luxes s) /\
  (isNetatmoTick i = false -> unhandled (trace r) = []).
Proof.
  cbv zeta. destruct i as [adv | ans now pe | power info now pe | camErr fn file upload now pe];
    cbn [reactA isDiscover isNetatmoTick isBraviaTick].
  - rewrite onDiscoverA_sample. cbv zeta.
    destruct (shortData adv); [|destruct (sampleOf adv)];
      unfold final, trace; cbn [fst snd]; repeat split; cbn; lia.
  - rewrite updateNetatmoStatus_eq.
    pose proof (weatherLog_quiet ans) as (Hp & _ & _ & _).
    destruct (weatherOutcome ans (luxes s)) as [status|e|e];
      [destruct (jseqb (netatmoStatus s) status)|..];
      cbv zeta; unfold final, trace; cbn [fst snd];
      rewrite ?publishes_app, ?Hp; destruct pe; repeat split; try discriminate; cbn; lia.
  - rewrite updateBraviaStatus_eq. cbv zeta.
    pose proof (braviaLog_quiet power info) as (Hp & _ & _ & Hu).
    destruct (jseqb (braviaStatus s) _);
      unfold final, trace; cbn [fst snd];
      rewrite ?publishes_app, ?unhandled_app, ?Hp, ?Hu; destruct pe; repeat split; try discriminate; cbn; lia.
  - unfold detached. rewrite onCameraReadA_eq.
    destruct (jseqb fn IMG_FILENAME); unfold final, trace; cbn [fst snd].
    + destruct camErr, file as [d|e1], upload as [h|e2], pe; repeat split; cbn; lia.
    + destruct camErr; repeat split; cbn; lia.
Qed.

(** The same for the callback variant, where no reaction leaves a
    rejection unhandled and the weather turn publishes nothing. *)
Lemma reactB_step (i : stimulus) (s : App) :
  let r := reactB i s in
  (List.length (publishes (trace r))
   <= if isDiscover i || isNetatmoTick i then 0 else 1)%nat /\
  (isNetatmoTick i = false -> netatmoStatus (final r) = netatmoStatus s) /\
  (isBraviaTick i = false -> braviaStatus (final r) = braviaStatus s) /\
  (isDiscover i = false -> isNetatmoTick i = false -> luxes (final r) = luxes s) /\
  unhandled (trace r) = [].
Proof.
  cbv zeta. destruct i as [adv | ans now pe | power info now pe | camErr fn file upload now pe];
    cbn [reactB isDiscover isNetatmoTick isBraviaTick orb].
  - rewrite onDiscoverB_sample. cbv zeta.
    destruct (shortData adv); [|destruct (sampleOf adv)];
      unfold final, trace; cbn [fst snd]; repeat split; cbn; lia.
  - rewrite startNetatmoMonitor_eq.
    pose proof (weatherLog_quiet ans) as (Hp & _ & _ & Hu).
    destruct (weatherOutcome ans (luxes s)) as [status|e|e];
      unfold final, trace; cbn [fst snd];
      rewrite ?publishes_app, ?unhandled_app, ?Hp, ?Hu; repeat split; try discriminate; cbn; lia.
  - rewrite startBraviaMonitor_eq. cbv zeta.
    pose proof (braviaLog_quiet power info) as (Hp & _ & _ & Hu).
    destruct (jseqb (braviaStatus s) _);
      unfold final, trace; cbn [fst snd];
      rewrite ?publishes_app, ?unhandled_app, ?Hp, ?Hu; destruct pe; repeat split; try discriminate; cbn; lia.
  - rewrite onCameraReadB_eq.
    destruct (jseqb fn IMG_FILENAME); unfold final, trace; cbn [fst snd].
    + destruct camErr, file as [d|e1], upload as [h|e2], pe; repeat split; cbn; lia.
    + destruct camErr; repeat split; cbn; lia.
Qed.

Lemma list_sum_indicator (p : stimulus -> bool) (l : list stimulus) :
  list_sum (map (fun i => if p i then 0%nat else 1%nat) l)
  = List.length (filter (fun i => negb (p i)) l).
Proof.
  induction l as [|i l IH]; [reflexivity|].
  cbn [map filter]. change (list_sum (?x :: ?r)) with (x + list_sum r)%nat.
  rewrite IH. destruct (p i); reflexivity.
Qed.

(** X16: no double publishing.  In any sequence of reactions, from any
    state, the number of posts is at most the number of stimuli that are no
    beacon events (a beacon event never posts, a loop turn or a capture
    cycle posts at most once); in the callback variant the weather turns do
    not count either. *)
Theorem X16_run_publish_bound (l : list stimulus) (s : App) :
  (List.length (publishes (trace (run reactA l s))) <= ticks l)%nat /\
  (List.length (publishes (trace (run reactB l s)))
   <= List.length (filter (fun i => negb (isDiscover i || isNetatmoTick i)) l))%nat.
Proof.
  split.
  - unfold ticks. rewrite <- (list_sum_indicator isDiscover).
    apply (run_count reactA (fun t => List.length (publishes t))).
    + reflexivity.
    + intros t u. now rewrite publishes_app, length_app.
    + intros i s0. apply (reactA_step i s0).
  - rewrite <- (list_sum_indicator (fun i => isDiscover i || isNetatmoTick i)).
    apply (run_count reactB (fun t => List.length (publishes t))).
    + reflexivity.
    + intros t u. now rewrite publishes_app, length_app.
    + intros i s0. apply (reactB_step i s0).
Qed.

(** X17: each stored fragment has one writer.  A sequence of reactions
    without a weather turn leaves the weather fragment as it was, one
    without a display turn leaves the display fragment as it was, and one
    with neither beacon events nor weather turns leaves the sample buffer
    as it was (both variants); the capture workflow writes nothing. *)
Theorem X17_single_writer (l : list stimulus) (s : App) :
  (forallb (fun i => negb (isNetatmoTick i)) l = true ->
   netatmoStatus (final (run reactA l s)) = netatmoStatus s /\
   netatmoStatus (final (run reactB l s)) = netatmoStatus s) /\
  (forallb (fun i => negb (isBraviaTick i)) l = true ->
   braviaStatus (final (run reactA l s)) = braviaStatus s /\
   braviaStatus (final (run reactB l s)) = braviaStatus s) /\
  (forallb (fun i => negb (isDiscover i) && negb (isNetatmoTick i)) l = true ->
   luxes (final (run reactA l s)) = luxes s /\
   luxes (final (run reactB l s)) = luxes s).
Proof.
  split; [|split]; intros H; split.
  - apply (run_preserves reactA netatmoStatus (fun i => negb (isNetatmoTick i))); [|exact H].
    intros i s0 Hi. apply negb_true_iff in Hi. now apply (reactA_step i s0).
  - apply (run_preserves reactB netatmoStatus (fun i => negb (isNetatmoTick i))); [|exact H].
    intros i s0 Hi. apply negb_true_iff in Hi. now apply (reactB_step i s0).
  - apply (run_preserves reactA braviaStatus (fun i => negb (isBraviaTick i))); [|exact H].
    intros i s0 Hi. apply negb_true_iff in Hi. now apply (reactA_step i s0).
  - apply (run_preserves reactB braviaStatus (fun i => negb (isBraviaTick i))); [|exact H].
    intros i s0 Hi. apply negb_true_iff in Hi. now apply (reactB_step i s0).
  - apply (run_preserves reactA luxes
             (fun i => negb (isDiscover i) && negb (isNetatmoTick i))); [|exact H].
    intros i s0 Hi. apply andb_true_iff in Hi. destruct Hi as [H1 H2].
    apply negb_true_iff in H1, H2. now apply (reactA_step i s0).
  - apply (run_preserves reactB luxes
             (fun i => negb (isDiscover i) && negb (isNetatmoTick i))); [|exact H].
    intros i s0 Hi. apply andb_true_iff in Hi. destruct Hi as [H1 H2].
    apply negb_true_iff in H1, H2. now apply (reactB_step i s0).
Qed.

Lemma X17_witness :
  let l := [BraviaTick (Fulfilled (mkPower (js "standby"))) (Rejected outOfRange) 1000 None;
            Discover (mkAdv (Some (js "BLECAST_BL")) (Some [0; 0; 0; 0; 0x34; 0x01]));
            CameraRead None IMG_FILENAME (Fulfilled [0xFF; 0xD8]) (Fulfilled (js "42"))
                       2000 None] in
  forallb (fun i => negb (isNetatmoTick i)) l = true /\
  netatmoStatus (final (run reactA l newApp)) = netatmoStatus newApp /\
  netatmoStatus (final (run reactB l newApp)) = netatmoStatus newApp.
Proof.
  cbv zeta. split; [reflexivity|].
  apply (proj1 (X17_single_writer
                  [BraviaTick (Fulfilled (mkPower (js "standby"))) (Rejected outOfRange) 1000 None;
                   Discover (mkAdv (Some (js "BLECAST_BL")) (Some [0; 0; 0; 0; 0x34; 0x01]));
                   CameraRead None IMG_FILENAME (Fulfilled [0xFF; 0xD8]) (Fulfilled (js "42"))
                              2000 None]
                  newApp)).
  reflexivity.
Defined.

Lemma list_sum_zero (A : Type) (l : list A) : list_sum (map (fun _ => 0%nat) l) = 0%nat.
Proof. induction l; [reflexivity | assumption]. Qed.

(** X18: in the callback variant no sequence of reactions ever leaves a
    rejected promise unhandled; in the async variant only the weather turn
    can: a sequence of reactions without a weather turn leaves none. *)
Theorem X18_unhandled_only_from_weather (l : list stimulus) (s : App) :
  unhandled (trace (run reactB l s)) = [] /\
  (forallb (fun i => negb (isNetatmoTick i)) l = true ->
   unhandled (trace (run reactA l s)) = []).
Proof.
  split.
  - apply length_zero_iff_nil. apply Nat.le_0_r.
    rewrite <- (list_sum_zero _ l).
    apply (run_count reactB (fun t => List.length (unhandled t))).
    + reflexivity.
    + intros t u. now rewrite unhandled_app, length_app.
    + intros i s0. destruct (reactB_step i s0) as (_ & _ & _ & _ & ->). apply Nat.le_refl.
  - intros H. apply length_zero_iff_nil. apply Nat.le_0_r.
    assert (Hw : list_sum (map (fun i => if negb (isNetatmoTick i) then 0%nat else 1%nat) l)
                 = 0%nat).
    { induction l as [|i l IH]; [reflexivity|].
      cbn [forallb] in H. apply andb_true_iff in H. destruct H as [Hi Hl].
      cbn [map]. change (list_sum (?x :: ?r)) with (x + list_sum r)%nat.
      rewrite Hi, (IH Hl). reflexivity. }
    rewrite <- Hw.
    apply (run_count reactA (fun t => List.length (unhandled t))).
    + reflexivity.
    + intros t u. now rewrite unhandled_app, length_app.
    + intros i s0. destruct (isNetatmoTick i) eqn:E; cbn [negb].
      * destruct i; try discriminate. cbn [reactA].
        rewrite updateNetatmoStatus_eq.
        pose proof (weatherLog_quiet ans) as (_ & _ & _ & Hu).
        destruct (weatherOutcome ans (luxes s0)) as [status|e|e];
          [destruct (jseqb (netatmoStatus s0) status)|..];
          cbv zeta; unfold trace; cbn [fst snd]; rewrite ?unhandled_app, ?Hu;
          try destruct postErr; cbn; lia.
      * destruct (reactA_step i s0) as (_ & _ & _ & _ & Hu). rewrite (Hu E). apply Nat.le_refl.
Qed.

Lemma X18_witness :
  let l := [BraviaTick (Fulfilled (mkPower (js "standby"))) (Rejected outOfRange) 1000
                       (Some postFailure);
            CameraRead None IMG_FILENAME (Fulfilled [0xFF; 0xD8]) (Rejected uploadFailure)
                       2000 (Some postFailure)] in
  forallb (fun i => negb (isNetatmoTick i)) l = true /\
  unhandled (trace (run reactA l newApp)) = [].
Proof.
  cbv zeta. split; [reflexivity|].
  apply (proj2 (X18_unhandled_only_from_weather
                  [BraviaTick (Fulfilled (mkPower (js "standby"))) (Rejected outOfRange) 1000
                              (Some postFailure);
                   CameraRead None IMG_FILENAME (Fulfilled [0xFF; 0xD8])
                              (Rejected uploadFailure) 2000 (Some postFailure)]
                  newApp)).
  reflexivity.
Defined.

(** X19: the beacon feed fills the sampler.  After any sequence of beacon
    events none of which has a matching name with fewer than 6 bytes of
    manufacturer data, the buffer is the old buffer followed by the samples
    of the accepted events, in order of arrival (both variants); both
    fragments are untouched and nothing was posted; the next drain prints
    the summary of exactly these samples. *)
Theorem X19_samples_accumulate (advs : list Advertisement) (s : App) :
  forallb (fun adv => negb (shortData adv)) advs = true ->
  let rA := run reactA (map Discover advs) s in
  let rB := run reactB (map Discover advs) s in
  outcome rA = Normal tt /\ outcome rB = Normal tt /\
  final rB = final rA /\
  luxes (final rA) = luxes s ++ samplesOf advs /\
  netatmoStatus (final rA) = netatmoStatus s /\
  braviaStatus (final rA) = braviaStatus s /\
  publishes (trace rA) = [] /\
  outcome (VariantA._calcLux (final rA)) = Normal (luxSummary (luxes s ++ samplesOf advs)).
Proof.
  cbv zeta. revert s. induction advs as [|adv advs IH]; intros s H.
  - cbn [map run samplesOf flat_map]. unfold ret, outcome, final, trace. cbn [fst snd].
    rewrite calcLux_summary, app_nil_r. repeat split.
  - cbn [forallb] in H. apply andb_true_iff in H. destruct H as [Hadv Hrest].
    apply negb_true_iff in Hadv.
    cbn [map]. rewrite !run_cons. cbn [reactA reactB].
    rewrite onDiscoverA_sample, onDiscoverB_sample, Hadv. cbv zeta.
    unfold samplesOf. cbn [flat_map]. fold (samplesOf advs).
    destruct (sampleOf adv) as [v|].
    + specialize (IH (setLuxes (luxes s ++ [v]) s) Hrest).
      destruct IH as (HA & HB & HF & HL & HN & HV & HP & HC).
      unfold outcome, final, trace in *. cbn [fst snd] in *.
      cbn [luxes setLuxes netatmoStatus braviaStatus] in *.
      rewrite <- app_assoc in HL, HC. cbn [app] in *.
      cbn [publishes]. repeat split; assumption.
    + specialize (IH s Hrest).
      destruct IH as (HA & HB & HF & HL & HN & HV & HP & HC).
      unfold outcome, final, trace in *. cbn [fst snd app] in *.
      cbn [publishes]. repeat split; assumption.
Qed.

Lemma X19_witness :
  let advs := [mkAdv (Some (js "BLECAST_BL")) (Some [0; 0; 0; 0; 0x34; 0x01]);
               mkAdv (Some (js "Kettle")) (Some [1; 2]);
               mkAdv None None;
               mkAdv (Some (js "BLECAST_BL")) (Some [0; 0; 0; 0; 0x36; 0x01; 0x00])] in
  forallb (fun adv => negb (shortData adv)) advs = true /\
  luxes (final (run reactA (map Discover advs) newApp)) = [308; 310].
Proof.
  cbv zeta. split; [reflexivity|].
  refine (proj1 (proj2 (proj2 (proj2
            (X19_samples_accumulate
               [mkAdv (Some (js "BLECAST_BL")) (Some [0; 0; 0; 0; 0x34; 0x01]);
                mkAdv (Some (js "Kettle")) (Some [1; 2]);
                mkAdv None None;
                mkAdv (Some (js "BLECAST_BL")) (Some [0; 0; 0; 0; 0x36; 0x01; 0x00])]
               newApp _))))).
  reflexivity.
Defined.

(** ** Publication on change, tied to the fetched answers *)

Lemma jseqb_sym (a b : jsstring) : jseqb a b = jseqb b a.
Proof.
  destruct (jseqb a b) eqn:E1, (jseqb b a) eqn:E2; try reflexivity.
  - apply jseqb_true in E1. apply jseqb_false in E2. congruence.
  - apply jseqb_false in E1. apply jseqb_true in E2. congruence.
Qed.

Lemma fresh_weather_composite (status : jsstring) (s : App) :
  jseqb (status ++ js " " ++ braviaStatus s) (composite s) = jseqb (netatmoStatus s) status.
Proof.
  unfold composite.
  destruct (jseqb (netatmoStatus s) status) eqn:E.
  - apply jseqb_true in E. rewrite E. apply jseqb_refl.
  - apply jseqb_false. intros H. apply composite_netatmo_inj in H.
    apply jseqb_false in E. congruence.
Qed.

Lemma fresh_display_composite (fragment : jsstring) (s : App) :
  jseqb (netatmoStatus s ++ js " " ++ fragment) (composite s) = jseqb (braviaStatus s) fragment.
Proof.
  unfold composite.
  destruct (jseqb (braviaStatus s) fragment) eqn:E.
  - apply jseqb_true in E. rewrite E. apply jseqb_refl.
  - apply jseqb_false. intros H. apply composite_bravia_inj in H.
    apply jseqb_false in E. congruence.
Qed.

(** C1, amended: in every turn of the display loop (both variants) and of
    the weather loop of the async variant, the fragment the turn fetched is
    the stored one afterwards and the Publisher is invoked exactly once,
    with the newly computed composite (the weather fragment, a space, the
    display fragment), when that composite differs from the composite of
    the fragments stored before the turn, and not at all when it is
    identical.  In the weather loop of the callback variant the fetched
    fragment is stored and the timer re-armed once, and the Publisher is
    not invoked, also when the newly computed composite differs.  A weather
    turn whose station callback threw has computed no fragment and
    publishes nothing. *)
Theorem C1_publish_on_change :
  (forall ans now postErr s,
      let r := VariantA.updateNetatmoStatus ans now postErr s in
      match outcome (VariantA._getNetatmoStationData ans s) with
      | Normal status =>
        let fresh := status ++ js " " ++ braviaStatus s in
        netatmoStatus (final r) = status /\
        braviaStatus (final r) = braviaStatus s /\
        publishes (trace r)
        = if jseqb fresh (composite s) then [] else [mkTweet (stamped fresh now) None]
      | Throw _ => False
      | Uncaught _ => publishes (trace r) = [] /\ composite (final r) = composite s
      end) /\
  (forall power info now postErr s,
      let r := VariantA.updateBraviaStatus power info now postErr s in
      match outcome (VariantA._getBraviaStatus power info s) with
      | Normal status =>
        let fresh := netatmoStatus s ++ js " " ++ (js "📺 " ++ status) in
        braviaStatus (final r) = js "📺 " ++ status /\
        netatmoStatus (final r) = netatmoStatus s /\
        publishes (trace r)
        = if jseqb fresh (composite s) then [] else [mkTweet (stamped fresh now) None]
      | _ => False
      end) /\
  (forall power info now postErr s,
      let r := VariantB.startBraviaMonitor power info now postErr s in
      match outcome (VariantB._getBraviaStatus power info s) with
      | Normal status =>
        let fresh := netatmoStatus s ++ js " " ++ (js "📺 " ++ status) in
        braviaStatus (final r) = js "📺 " ++ status /\
        netatmoStatus (final r) = netatmoStatus s /\
        publishes (trace r)
        = if jseqb fresh (composite s) then [] else [mkTweet (stamped fresh now) None]
      | _ => False
      end) /\
  (forall ans s,
      let r := VariantB.startNetatmoMonitor ans s in
      match outcome (VariantB._getNetatomoStationData ans s) with
      | Normal status =>
        netatmoStatus (final r) = status /\
        braviaStatus (final r) = braviaStatus s /\
        timers (trace r) = [(NetatmoMonitor, VariantB.NETATOMO_INTERVAL)] /\
        publishes (trace r) = []
      | Throw _ => False
      | Uncaught _ =>
        publishes (trace r) = [] /\ timers (trace r) = [] /\
        composite (final r) = composite s
      end).
Proof.
  split; [|split; [|split]].
  - intros ans now postErr s. cbv zeta.
    rewrite getNetatmoStationData_eq, updateNetatmoStatus_eq.
    pose proof (weatherLog_quiet ans) as (Hp & _ & _ & _).
    unfold outcome at 1. cbn [fst].
    destruct (weatherOutcome ans (luxes s)) as [status|e|e] eqn:E.
    + rewrite fresh_weather_composite.
      destruct (jseqb (netatmoStatus s) status) eqn:Eq.
      * apply jseqb_true in Eq. unfold final, trace. cbn [fst snd].
        repeat split; auto.
      * cbv zeta. unfold final, trace. cbn [fst snd]. rewrite publishes_app, Hp.
        destruct postErr; repeat split.
    + exact (weatherOutcome_not_thrown _ _ _ E).
    + unfold final, trace. cbn [fst snd]. split; [exact Hp | reflexivity].
  - intros power info now postErr s. cbv zeta.
    rewrite getBraviaStatus_eq, updateBraviaStatus_eq.
    pose proof (braviaLog_quiet power info) as (Hp & _ & _ & _).
    unfold outcome at 1. cbn [fst]. cbv zeta. rewrite fresh_display_composite.
    destruct (jseqb (braviaStatus s) (js "📺 " ++ braviaBody power info)) eqn:Eq.
    + apply jseqb_true in Eq. unfold final, trace. cbn [fst snd]. repeat split; auto.
    + unfold final, trace. cbn [fst snd]. rewrite publishes_app, Hp.
      destruct postErr; repeat split.
  - intros power info now postErr s. cbv zeta.
    rewrite getBraviaStatus_agree, getBraviaStatus_eq, startBraviaMonitor_eq.
    pose proof (braviaLog_quiet power info) as (Hp & _ & _ & _).
    unfold outcome at 1. cbn [fst]. cbv zeta. rewrite fresh_display_composite.
    destruct (jseqb (braviaStatus s) (js "📺 " ++ braviaBody power info)) eqn:Eq.
    + apply jseqb_true in Eq. unfold final, trace. cbn [fst snd].
      rewrite publishes_app, Hp. repeat split; auto.
    + unfold final, trace. cbn [fst snd]. rewrite !publishes_app, Hp.
      destruct postErr; repeat split.
  - intros ans s. cbv zeta.
    rewrite getNetatomoStationData_agree, getNetatmoStationData_eq, startNetatmoMonitor_eq.
    pose proof (weatherLog_quiet ans) as (Hp & Ht & _ & _).
    unfold outcome at 1. cbn [fst].
    destruct (weatherOutcome ans (luxes s)) as [status|e|e] eqn:E.
    + unfold final, trace. cbn [fst snd]. rewrite publishes_app, timers_app, Hp, Ht.
      repeat split.
    + exact (weatherOutcome_not_thrown _ _ _ E).
    + unfold final, trace. cbn [fst snd]. repeat split; assumption.
Qed.

(** ** The display fragment: what the regular expression leaves *)

Lemma bind_first {A B : Type} (m m' : Js A) (k : A -> Js B) (s : App) :
  m s = m' s -> bind m k s = bind m' k s.
Proof. intros H. unfold bind. now rewrite H. Qed.

(** On answers that carry their fields the wider model is the model of
    [VariantA]. *)
Lemma fieldLess_refines (power : answer PowerStatus) (info : answer ContentInfo)
    (now : N) (postErr : option jserror) (s : App) :
  FieldLess.updateBraviaStatus (FieldLess.withFieldsP power) (FieldLess.withFieldsI info)
                               now postErr s
  = VariantA.updateBraviaStatus power info now postErr s.
Proof.
  unfold FieldLess.updateBraviaStatus, VariantA.updateBraviaStatus.
  assert (H : try_catch
                (status <- FieldLess._getBraviaStatus (FieldLess.withFieldsP power)
                                                      (FieldLess.withFieldsI info) ;;
                 ret (js "📺 " ++ FieldLess.stringOf status))
                (fun e => emit (Log LError (js "%j")) ;; ret (js "📺 " ++ message e)) s
              = try_catch
                  (status <- VariantA._getBraviaStatus power info ;;
                   ret (js "📺 " ++ status))
                  (fun e => emit (Log LError (js "%j")) ;; ret (js "📺 " ++ message e)) s).
  { unfold FieldLess._getBraviaStatus, VariantA._getBraviaStatus,
      try_catch, bind, await, ret, throw, emit.
    destruct power as [p|e]; [|reflexivity].
    cbn [FieldLess.withFieldsP FieldLess.status_field FieldLess.isActive].
    destruct (jseqb (power_status p) (js "active")); [|reflexivity].
    destruct info as [i|e]; [|reflexivity].
    cbn [FieldLess.withFieldsI FieldLess.programTitle_field FieldLess.title_field].
    destruct (programTitle i) as [[|c t]|]; reflexivity. }
  exact (bind_first _ _ _ s H).
Qed.

(** An emoji of another block is no code point of the two ranges: it is
    kept, wherever it stands in a well-formed title. *)
Lemma other_emoji_kept (cp : N) (units : jsstring) :
  inRange 0x1F600 0x1F64F cp = true ->
  emojiCodePoint cp = true /\ kept (cp, units) = true.
Proof.
  intros H. unfold emojiCodePoint, kept, privateUse, pictograph. cbn [fst].
  rewrite H. split.
  - now rewrite !orb_true_r.
  - destruct (inRange 0xE000 0xF8FF cp) eqn:E1; [ranges; lia|].
    destruct (inRange 0x1F300 0x1F5FF cp) eqn:E2; [ranges; lia|].
    reflexivity.
Qed.

(** C6, as stated, fails.  An emoji of the program title that lies outside
    U+1F300..U+1F5FF stays in the fragment: with title "NHK" and program
    title "News😀" (U+1F600, block Emoticons) the fragment is
    "📺 NHK: News😀", not the claimed "📺 NHK: News".  And a failure that
    is no rejection gives no marker: a fulfilled power answer without its
    status field gives the fragment "📺 undefined". *)
Lemma C6_counterexample :
  let power := Fulfilled (mkPower (js "active")) in
  let info := Fulfilled (mkInfo (js "NHK") (Some (js "News😀"))) in
  let rA := VariantA.updateBraviaStatus power info 1000 None newApp in
  let rB := VariantB.startBraviaMonitor power info 1000 None newApp in
  codePoints (js "😀") = [(0x1F600, js "😀")] /\
  emojiCodePoint 0x1F600 = true /\
  claimedDisplayFragment power info = js "📺 NHK: News" /\
  braviaStatus (final rA) = js "📺 NHK: News😀" /\
  braviaStatus (final rB) = js "📺 NHK: News😀" /\
  braviaStatus (final rA) <> claimedDisplayFragment power info /\
  braviaStatus
    (final (FieldLess.updateBraviaStatus
              (Fulfilled (FieldLess.mkPowerAnswer None))
              (Fulfilled (FieldLess.mkContentAnswer None None)) 1000 None newApp))
  = js "📺 undefined".
Proof.
  cbv zeta. repeat split.
  intros H. apply (f_equal (@List.length N)) in H. vm_compute in H. discriminate.
Qed.
